(** * Job Scorer: the rule engine of [score_job] and the code around it

    A shallow embedding of [score_job] (src/main.py) and of the Python
    primitives it uses ([dict.get], [str.lower], [str.join], [str], [in]
    on strings, [re.search] for the two pattern shapes of the source,
    truthiness, [len]), followed by the properties of the scorer.

    Around the scorer the file embeds the clean-up of the model's reply
    and [process_input] of src/main.py, the record built by
    [fetch_job_from_linkedin] (src/linkedin_parser.py), and, in module
    [Runner], the reply handling, the job link search and [process_input]
    of src/tempCodeRunnerFile.py. The calls that leave the program (the
    model, OCR, the scraper process, [json.loads], [json.dumps]) are
    arguments of the functions that make them.

    Text is a [string] whose characters stand for the code points 0..255
    (ASCII and the Latin-1 supplement); [lower_char], [is_word],
    [is_space] and [is_digit] follow Python's [str.lower], the classes
    [\w] and [\d] of [re] and [str.isspace] on that range. *)

From Stdlib Require Import ZArith NArith String Ascii List Bool Lia DecimalString.
From stdpp Require Import base option list gmap strings.

Local Open Scope string_scope.
Local Open Scope Z_scope.

#[local] Arguments String.append : simpl nomatch.

Set Warnings "-register-all".

(** ** Python values and exceptions *)

(** The values a job mapping can hold once [json.loads] has produced it.
    [PyObj truth repr] is any other object (a float, a nested mapping):
    [score_job] can observe only its truth value and its [str()] text. *)
Inductive pyval : Type :=
| PyNone
| PyBool (b : bool)
| PyInt (n : Z)
| PyStr (s : string)
| PyList (xs : list pyval)
| PyObj (truth : bool) (repr : string).

Inductive pyexn : Type :=
| AttributeError
| TypeError.

(** The outcome of evaluating Python code: a value or a raised exception. *)
Inductive outcome (A : Type) : Type :=
| Returns (a : A)
| Raises (e : pyexn).

Arguments Returns {A} a.
Arguments Raises {A} e.

(** Sequencing: an exception raised by the first computation propagates. *)
#[global] Instance outcome_bind : MBind outcome := fun A B k m =>
  match m with
  | Returns a => k a
  | Raises e => Raises e
  end.

(** ** Text primitives *)

Module Text.

Definition code (c : ascii) : N := N_of_ascii c.

Definition between (lo hi : N) (c : ascii) : bool :=
  ((lo <=? code c) && (code c <=? hi))%N.

(** [str.lower] on one code point below 256: A-Z, and the Latin-1 capitals
    U+00C0..U+00DE except the multiplication sign U+00D7. *)
Definition lower_char (c : ascii) : ascii :=
  if between 65 90 c || (between 192 222 c && negb (code c =? 215)%N)
  then ascii_of_N (code c + 32)
  else c.

Fixpoint lower (s : string) : string :=
  match s with
  | EmptyString => EmptyString
  | String c s' => String (lower_char c) (lower s')
  end.

(** The class [\w] of [re] for str patterns, below 256: alphanumeric code
    points and the underscore. *)
Definition is_word (c : ascii) : bool :=
  between 48 57 c || between 65 90 c || between 97 122 c || (code c =? 95)%N
  || (code c =? 170)%N || (code c =? 181)%N || (code c =? 186)%N
  || between 178 179 c || (code c =? 185)%N || between 188 190 c
  || (between 192 255 c && negb (code c =? 215)%N && negb (code c =? 247)%N).

(** [s.startswith(k)] *)
Fixpoint startswith (k s : string) : bool :=
  match k with
  | EmptyString => true
  | String a k' =>
      match s with
      | EmptyString => false
      | String c s' => Ascii.eqb a c && startswith k' s'
      end
  end.

(** [k in s] for strings: [k] occurs in [s] at some position. *)
Fixpoint contains (k s : string) : bool :=
  startswith k s ||
  match s with
  | EmptyString => false
  | String _ s' => contains k s'
  end.

(** [any(k in s for k in ks)] *)
Definition contains_any (ks : list string) (s : string) : bool :=
  existsb (fun k => contains k s) ks.

(** [sep.join(xs)] on a list of strings. *)
Fixpoint join (sep : string) (xs : list string) : string :=
  match xs with
  | [] => EmptyString
  | [x] => x
  | x :: rest => String.append x (String.append sep (join sep rest))
  end.

(** *** [re.search] for a pattern [\b(w1|...|wn)\b] *)

Definition word_opt (o : option ascii) : bool :=
  match o with
  | Some c => is_word c
  | None => false
  end.

Definition head (s : string) : option ascii :=
  match s with
  | EmptyString => None
  | String c _ => Some c
  end.

(** [\b] between the character [prev] before the position (if any) and the
    text [rest] from the position on. *)
Definition at_boundary (prev : option ascii) (rest : string) : bool :=
  xorb (word_opt prev) (word_opt (head rest)).

(** Matching the literal [w] at the position; the result is the character
    before the end position and the text after it. *)
Fixpoint match_literal (w : string) (prev : option ascii) (s : string)
  : option (option ascii * string) :=
  match w with
  | EmptyString => Some (prev, s)
  | String a w' =>
      match s with
      | EmptyString => None
      | String c s' =>
          if Ascii.eqb a c then match_literal w' (Some c) s' else None
      end
  end.

(** [\b(w1|...|wn)\b] matched at one position. *)
Definition match_words_here (ws : list string) (prev : option ascii) (s : string) : bool :=
  at_boundary prev s &&
  existsb (fun w =>
             match match_literal w prev s with
             | Some (prev', rest) => at_boundary prev' rest
             | None => false
             end) ws.

Fixpoint search_words_from (ws : list string) (prev : option ascii) (s : string) : bool :=
  match_words_here ws prev s ||
  match s with
  | EmptyString => false
  | String c s' => search_words_from ws (Some c) s'
  end.

(** [re.search(r"\b(w1|...|wn)\b", s)] as a truth value. *)
Definition search_words (ws : list string) (s : string) : bool :=
  search_words_from ws None s.

End Text.

(** ** Python operations on values *)

(** [d.get(k, default)] *)
Definition dict_get (d : gmap string pyval) (k : string) (default : pyval) : pyval :=
  match d !! k with
  | Some v => v
  | None => default
  end.

(** [v.lower()]: only [str] has the method. *)
Definition py_lower (v : pyval) : outcome string :=
  match v with
  | PyStr s => Returns (Text.lower s)
  | _ => Raises AttributeError
  end.

(** [isinstance(v, list)] *)
Definition is_list (v : pyval) : bool :=
  match v with
  | PyList _ => true
  | _ => false
  end.

(** [bool(v)] *)
Definition truthy (v : pyval) : bool :=
  match v with
  | PyNone => false
  | PyBool b => b
  | PyInt n => negb (n =? 0)
  | PyStr s => negb (String.eqb s "")
  | PyList xs => match xs with [] => false | _ => true end
  | PyObj t _ => t
  end.

(** [str(v)]. [score_job] applies [str] only in the branch where the value
    is not a list, so the text given for a list is never observed; it
    stands for Python's bracketed rendering. *)
Definition py_str (v : pyval) : string :=
  match v with
  | PyNone => "None"
  | PyBool true => "True"
  | PyBool false => "False"
  | PyInt n => NilZero.string_of_int (Z.to_int n)
  | PyStr s => s
  | PyList _ => "[...]"
  | PyObj _ r => r
  end.

(** The items of the iterable handed to [join] must all be [str]. *)
Fixpoint str_items (xs : list pyval) : outcome (list string) :=
  match xs with
  | [] => Returns []
  | PyStr s :: rest => ss ← str_items rest; Returns (s :: ss)
  | _ :: _ => Raises TypeError
  end.

Definition chars (s : string) : list pyval :=
  map (fun c => PyStr (String c EmptyString)) (list_ascii_of_string s).

(** [sep.join(v)] *)
Definition py_join (sep : string) (v : pyval) : outcome string :=
  match v with
  | PyList xs => ss ← str_items xs; Returns (Text.join sep ss)
  | PyStr s => ss ← str_items (chars s); Returns (Text.join sep ss)
  | _ => Raises TypeError
  end.

(** ** The scorer *)

Record ScoreResult : Type := mkResult {
  score : Z;
  tier : string;
  tags : list string
}.

(** The two locals [score] and [tags] that the rule blocks update. *)
Record acc : Type := mkAcc {
  acc_score : Z;
  acc_tags : list string
}.

(** [score += n] *)
Definition add_score (n : Z) (a : acc) : acc :=
  mkAcc (acc_score a + n) (acc_tags a).

(** [tags.append(t)] *)
Definition append_tag (t : string) (a : acc) : acc :=
  mkAcc (acc_score a) (acc_tags a ++ [t]).

Definition compensation (desc : string) (a : acc) : acc :=
  if Text.search_words ["intern"; "unpaid"] desc then
    append_tag "unpaid" (add_score 1 a)
  else if Text.contains "negotiable" desc then
    append_tag "negotiable" (add_score 2 a)
  else if Text.search_words ["inr"; "lpa"; "$"; "salary"; "stipend"] desc then
    append_tag "well_paid" (add_score 3 a)
  else a.

Definition learning (desc : string) (a : acc) : acc :=
  if Text.contains_any ["mentorship"; "training"; "learning"; "hands-on"] desc then
    append_tag "high_learning" (add_score 2 a)
  else if Text.contains "startup" desc || Text.contains "early-stage" desc then
    append_tag "learning_potential" (add_score 1 a)
  else a.

Definition student_friendly (desc experience : string) (a : acc) : acc :=
  if Text.search_words ["intern"; "fresher"; "0-1 year"; "entry level"] desc then
    append_tag "student_friendly" (add_score 2 a)
  else if Text.contains "1-2 years" experience then
    add_score 1 a
  else a.

Definition company_reputation (desc company : string) (a : acc) : acc :=
  if Text.contains_any ["google"; "microsoft"; "amazon"; "techcorp"; "flipkart"] company then
    append_tag "reputed_company" (add_score 2 a)
  else if Text.contains "startup" desc then
    append_tag "startup" (add_score 1 a)
  else a.

Definition remote (desc location : string) (a : acc) : acc :=
  if Text.contains_any ["remote"; "hybrid"; "work from home"] (String.append desc location) then
    append_tag "remote" (add_score 1 a)
  else a.

Definition employment_type (desc : string) (a : acc) : acc :=
  if Text.contains "full-time" desc || Text.contains "permanent" desc then
    append_tag "full_time" (add_score 2 a)
  else if Text.contains_any ["contract"; "freelance"] desc then
    add_score 1 a
  else a.

(** [all(job.get(k) for k in [...])] *)
Definition clarity (job : gmap string pyval) : bool :=
  forallb (fun k => truthy (dict_get job k PyNone))
          ["job_title"; "job_description"; "company_name"; "location"].

Definition completeness (job : gmap string pyval) (desc : string) (a : acc) : acc :=
  if clarity job && (100 <? Z.of_nat (String.length desc)) then
    append_tag "clear_info" (add_score 2 a)
  else if clarity job then
    add_score 1 a
  else a.

Definition tier_of (s : Z) : string :=
  if 11 <=? s then "high"
  else if 7 <=? s then "medium"
  else "low".

(** The five text views read at the top of [score_job]. *)
Record views : Type := mkViews {
  v_desc : string;
  v_title : string;
  v_experience : string;
  v_company : string;
  v_location : string
}.

Definition read_experience (job : gmap string pyval) : outcome string :=
  joined ← (if is_list (dict_get job "experience_required" PyNone)
             then py_join " " (dict_get job "experience_required" (PyList []))
             else py_join " " (PyList [PyStr (py_str (dict_get job "experience_required" (PyStr "")))]));
  py_lower (PyStr joined).

Definition read_views (job : gmap string pyval) : outcome views :=
  desc ← py_lower (dict_get job "job_description" (PyStr ""));
  title ← py_lower (dict_get job "job_title" (PyStr ""));
  experience ← read_experience job;
  company ← py_lower (dict_get job "company_name" (PyStr ""));
  location ← py_lower (dict_get job "location" (PyStr ""));
  Returns (mkViews desc title experience company location).

(** The rule blocks in source order, from [score = 0] and [tags = []]. *)
Definition run_rules (job : gmap string pyval) (v : views) : acc :=
  completeness job (v_desc v)
    (employment_type (v_desc v)
      (remote (v_desc v) (v_location v)
        (company_reputation (v_desc v) (v_company v)
          (student_friendly (v_desc v) (v_experience v)
            (learning (v_desc v)
              (compensation (v_desc v) (mkAcc 0 []))))))).

Definition finish (a : acc) : ScoreResult :=
  mkResult (acc_score a) (tier_of (acc_score a)) (acc_tags a).

Definition score_job (job : gmap string pyval) : outcome ScoreResult :=
  v ← read_views job;
  Returns (finish (run_rules job v)).

(** The rule blocks that follow the compensation block. *)
Definition later_rules (job : gmap string pyval) (v : views) (a : acc) : acc :=
  completeness job (v_desc v)
    (employment_type (v_desc v)
      (remote (v_desc v) (v_location v)
        (company_reputation (v_desc v) (v_company v)
          (student_friendly (v_desc v) (v_experience v)
            (learning (v_desc v) a))))).

(** ** Records of the data model *)

Definition is_str (v : pyval) : bool :=
  match v with
  | PyStr _ => true
  | _ => false
  end.

Definition text_or_absent (o : option pyval) : bool :=
  match o with
  | None => true
  | Some v => is_str v
  end.

Definition experience_shape (o : option pyval) : bool :=
  match o with
  | None => true
  | Some (PyStr _) => true
  | Some (PyList xs) => forallb is_str xs
  | Some _ => false
  end.

(** A job record: the four text fields are strings when present, and
    [experience_required] is a string or a list of strings when present.
    The fields the scorer never reads are left free. *)
Definition job_record (job : gmap string pyval) : bool :=
  forallb (fun k => text_or_absent (job !! k))
          ["job_description"; "job_title"; "company_name"; "location"]
  && experience_shape (job !! "experience_required").

(** The text a record holds under a key: the empty text when the key is
    absent. *)
Definition field_text (job : gmap string pyval) (k : string) : string :=
  match job !! k with
  | Some (PyStr s) => s
  | _ => ""
  end.

Definition strings_of (xs : list pyval) : list string :=
  omap (λ v, match v with PyStr s => Some s | _ => None end) xs.

Definition experience_text (job : gmap string pyval) : string :=
  match job !! "experience_required" with
  | Some (PyStr s) => s
  | Some (PyList xs) => Text.join " " (strings_of xs)
  | _ => ""
  end.

(** The views [score_job] works on when the record is well formed. *)
Definition record_views (job : gmap string pyval) : views :=
  mkViews (Text.lower (field_text job "job_description"))
          (Text.lower (field_text job "job_title"))
          (Text.lower (experience_text job))
          (Text.lower (field_text job "company_name"))
          (Text.lower (field_text job "location")).

(** ** Vocabulary of the properties *)

(** The character just before the end of [s], where [prev] is the one
    before [s] itself. *)
Fixpoint last_char (prev : option ascii) (s : string) : option ascii :=
  match s with
  | EmptyString => prev
  | String c s' => last_char (Some c) s'
  end.

(** [w] stands in [s] as a whole word: an occurrence with no word
    character directly before or after it. *)
Definition whole_word (w s : string) : Prop :=
  ∃ pre post, s = pre +:+ w +:+ post
    ∧ Text.word_opt (last_char None pre) = false
    ∧ Text.word_opt (Text.head post) = false.

(** [p] occurs in [s] at a place with no word character directly before. *)
Definition at_word_start (p s : string) : Prop :=
  ∃ pre post, s = pre +:+ p +:+ post
    ∧ Text.word_opt (last_char None pre) = false.

Definition work_mode_keywords : list string :=
  ["remote"; "hybrid"; "work from home"].

Definition vocabulary : list string :=
  ["unpaid"; "negotiable"; "well_paid"; "high_learning"; "learning_potential";
   "student_friendly"; "reputed_company"; "startup"; "remote"; "full_time";
   "clear_info"].

(** The tags of each rule category, in source order. *)
Definition categories : list (list string) :=
  [ ["unpaid"; "negotiable"; "well_paid"];
    ["high_learning"; "learning_potential"];
    ["student_friendly"];
    ["reputed_company"; "startup"];
    ["remote"];
    ["full_time"];
    ["clear_info"] ].

Definition count_in (category ts : list string) : nat :=
  length (filter (λ t, t ∈ category) ts).

(** What a rule block leaves behind: [p] points and the tags [ts]. *)
Definition awards (p : Z) (ts : list string) (a : acc) : acc :=
  mkAcc (acc_score a + p) (acc_tags a ++ ts).

(** A block is one of finitely many awards, whatever the accumulator. *)
Definition one_of (opts : list (Z * list string)) (f : acc → acc) : Prop :=
  ∃ o, In o opts ∧ ∀ a, f a = awards o.1 o.2 a.

(** The awards of two blocks run one after the other. *)
Definition both (xs ys : list (Z * list string)) : list (Z * list string) :=
  map (λ xy, (xy.1.1 + xy.2.1, (xy.1.2 ++ xy.2.2)%list)) (list_prod xs ys).

Definition compensation_awards : list (Z * list string) :=
  [(1, ["unpaid"]); (2, ["negotiable"]); (3, ["well_paid"]); (0, [])].
Definition learning_awards : list (Z * list string) :=
  [(2, ["high_learning"]); (1, ["learning_potential"]); (0, [])].
Definition student_awards : list (Z * list string) :=
  [(2, ["student_friendly"]); (1, []); (0, [])].
Definition company_awards : list (Z * list string) :=
  [(2, ["reputed_company"]); (1, ["startup"]); (0, [])].
Definition remote_awards : list (Z * list string) :=
  [(1, ["remote"]); (0, [])].
Definition employment_awards : list (Z * list string) :=
  [(2, ["full_time"]); (1, []); (0, [])].
Definition completeness_awards : list (Z * list string) :=
  [(2, ["clear_info"]); (1, []); (0, [])].

Definition later_awards : list (Z * list string) :=
  both (both (both (both (both learning_awards student_awards) company_awards)
                   remote_awards) employment_awards) completeness_awards.

Definition all_awards : list (Z * list string) :=
  both compensation_awards later_awards.

(** The tags of a result are sound: from the vocabulary, without
    repetition, and at most one from each category. *)
Definition sound_tags (ts : list string) : Prop :=
  Forall (λ t, t ∈ vocabulary) ts
  ∧ NoDup ts
  ∧ Forall (λ c, (count_in c ts ≤ 1)%nat) categories.

#[global] Instance sound_tags_dec (ts : list string) : Decision (sound_tags ts).
Proof. unfold sound_tags. apply _. Defined.

(** The conditions of the branches that the phrase of [acme_plain] does not
    itself trigger. *)
Definition no_other_branch (desc experience : string) : bool :=
  negb (Text.search_words ["intern"; "fresher"; "0-1 year"; "entry level"] desc)
  && negb (Text.contains "1-2 years" experience)
  && negb (Text.contains "startup" desc).

Definition text_keys : list string :=
  ["job_description"; "job_title"; "company_name"; "location"].

(** The keys [score_job] reads. *)
Definition read_keys : list string :=
  ["job_description"; "job_title"; "experience_required"; "company_name"; "location"].

Definition same_fields (job1 job2 : gmap string pyval) : Prop :=
  ∀ k, In k read_keys → job1 !! k = job2 !! k.

(** [job_info.update(scored)] in [process_input]: the result is written
    back into the record that was scored. *)
Definition update_with (job : gmap string pyval) (r : ScoreResult) : gmap string pyval :=
  <["tags" := PyList (PyStr <$> tags r)]>
    (<["tier" := PyStr (tier r)]>
      (<["score" := PyInt (score r)]> job)).

(** ** Sample records *)

Definition mk_job (title description company location : string) (experience : pyval)
  : gmap string pyval :=
  {[ "job_title" := PyStr title;
     "job_description" := PyStr description;
     "company_name" := PyStr company;
     "location" := PyStr location;
     "experience_required" := experience;
     "tech_stack" := PyList [];
     "contact_info" := PyList [] ]}.

Definition empty_record_list : gmap string pyval := mk_job "" "" "" "" (PyList []).
Definition empty_record_str : gmap string pyval := mk_job "" "" "" "" (PyStr "").

Definition phrase : string :=
  "unpaid internship, remote, full-time, mentorship provided".

Definition acme_plain : gmap string pyval :=
  mk_job "Marketing Assistant"
         "We offer an unpaid internship, remote, full-time, mentorship provided. Send your resume to the hiring team before Friday."
         "Acme" "Pune" (PyStr "").

(** The phrase set in italics the way chat messages mark it, between
    underscores. *)
Definition acme_italic : gmap string pyval :=
  mk_job "Marketing Assistant"
         "Details: _unpaid internship, remote, full-time, mentorship provided_ Send your resume to the hiring team before Friday."
         "Acme" "Pune" (PyStr "").

Definition null_description : gmap string pyval :=
  <["job_description" := PyNone]> (mk_job "Clerk" "" "Acme" "Pune" (PyStr "")).

Definition numeric_location : gmap string pyval :=
  <["location" := PyInt 560001]> (mk_job "Clerk" "Filing" "Acme" "" (PyStr "")).

Definition mixed_experience : gmap string pyval :=
  mk_job "Clerk" "Filing" "Acme" "Pune" (PyList [PyStr "1-2 years"; PyInt 2]).

Definition numeric_experience : gmap string pyval :=
  mk_job "Clerk" "Filing" "Acme" "Pune" (PyInt 2).

Definition dollar_record : gmap string pyval :=
  mk_job "Sales Associate" "$5000/month stipendless pay" "Acme" "Delhi" (PyStr "").

Definition dollar_inside_record : gmap string pyval :=
  mk_job "Sales Associate" "pay is usd$5000 per month" "Acme" "Delhi" (PyStr "").

Definition salary_record : gmap string pyval :=
  mk_job "Sales Associate" "Unpaid trial week, then a salary" "Acme" "Delhi" (PyStr "").

Definition garden_record : gmap string pyval :=
  mk_job "Gardener" "Gardener needed at the garden centre" "Greenfingers"
         "Mote Park, Maidstone" (PyStr "").

Definition scores_6 : gmap string pyval :=
  mk_job "Dev" "salary offered, full-time" "Acme" "Pune" (PyStr "").
Definition scores_7 : gmap string pyval :=
  mk_job "Dev" "salary offered, full-time, remote" "Acme" "Pune" (PyStr "").
Definition scores_10 : gmap string pyval :=
  mk_job "" "fresher role, salary offered, full-time, remote, mentorship" "Acme" "Pune" (PyStr "").
Definition scores_11 : gmap string pyval :=
  mk_job "Dev" "fresher role, salary offered, full-time, remote, mentorship" "Acme" "Pune" (PyStr "").

(** ** When the scorer returns *)

(** [" ".join] accepts the experience unless it is a list with an item
    that is not a string; any other value is wrapped by [str] first. *)
Definition experience_joinable (o : option pyval) : bool :=
  match o with
  | Some (PyList xs) => forallb is_str xs
  | _ => true
  end.

(** The records on which no line of [score_job] raises. *)
Definition readable (job : gmap string pyval) : bool :=
  forallb (λ k, text_or_absent (job !! k)) text_keys
  && experience_joinable (job !! "experience_required").

(** The points added on the line before each [tags.append]. *)
Definition tag_points (t : string) : Z :=
  if bool_decide (t = "well_paid") then 3
  else if bool_decide (t ∈ ["negotiable"; "high_learning"; "student_friendly";
                            "reputed_company"; "full_time"; "clear_info"]) then 2
  else if bool_decide (t ∈ ["unpaid"; "learning_potential"; "startup"; "remote"]) then 1
  else 0.

Definition tags_points (ts : list string) : Z :=
  foldr (λ t n, tag_points t + n) 0 ts.

(** [xs] is [ys] with some elements left out, in the same order. *)
Fixpoint subseq (xs ys : list string) : bool :=
  match xs, ys with
  | [], _ => true
  | _ :: _, [] => false
  | x :: xs', y :: ys' =>
      if bool_decide (x = y) then subseq xs' ys' else subseq xs ys'
  end.

(** The awards of the blocks before and after the work-mode block. *)
Definition awards_before_remote : list (Z * list string) :=
  both (both (both compensation_awards learning_awards) student_awards) company_awards.

Definition awards_after_remote : list (Z * list string) :=
  both employment_awards completeness_awards.

Definition best_record : gmap string pyval :=
  mk_job "Graduate Engineer"
         "Fresher role with a salary of 6 lpa, full-time and remote, with mentorship from senior engineers across the whole first year."
         "Google" "Bengaluru" (PyStr "").

Definition acme_shouting : gmap string pyval :=
  mk_job "MARKETING ASSISTANT"
         "WE OFFER AN UNPAID INTERNSHIP, REMOTE, FULL-TIME, MENTORSHIP PROVIDED. SEND YOUR RESUME TO THE HIRING TEAM BEFORE FRIDAY."
         "ACME" "PUNE" (PyStr "").

(** ** The reply of the model and the input pipeline (src/main.py) *)

(** [c.isspace()] below 256: the ASCII white space, the four separators
    U+001C..U+001F, U+0085 and U+00A0. *)
Definition is_space (c : ascii) : bool :=
  Text.between 9 13 c || Text.between 28 32 c
  || (Text.code c =? 133)%N || (Text.code c =? 160)%N.

(** [s.lstrip()] *)
Fixpoint lstrip (s : string) : string :=
  match s with
  | EmptyString => EmptyString
  | String c s' => if is_space c then lstrip s' else s
  end.

(** [s.rstrip()] *)
Fixpoint rstrip (s : string) : string :=
  match s with
  | EmptyString => EmptyString
  | String c s' =>
      match rstrip s' with
      | EmptyString => if is_space c then EmptyString else String c EmptyString
      | r => String c r
      end
  end.

(** [s.strip()] *)
Definition strip (s : string) : string := rstrip (lstrip s).

(** [s.replace(old, new)] for a non-empty [old]: the occurrences are
    taken from the left and do not overlap; [skip] counts the characters
    of a found occurrence still to be passed over. *)
Fixpoint replace_from (old new : string) (skip : nat) (s : string) : string :=
  match s with
  | EmptyString => EmptyString
  | String c s' =>
      match skip with
      | S k => replace_from old new k s'
      | O =>
          if Text.startswith old s
          then new +:+ replace_from old new (String.length old - 1) s'
          else String c (replace_from old new 0 s')
      end
  end.

(** With an empty [old], [new] goes before every character and at the end. *)
Fixpoint interleave (new s : string) : string :=
  match s with
  | EmptyString => new
  | String c s' => new +:+ String c (interleave new s')
  end.

(** [s.replace(old, new)] *)
Definition replace (old new s : string) : string :=
  match old with
  | EmptyString => interleave new s
  | String _ _ => replace_from old new 0 s
  end.

(** [s.endswith(k)] *)
Definition endswith (k s : string) : bool :=
  (String.length k <=? String.length s)%nat
  && String.eqb (substring (String.length s - String.length k) (String.length k) s) k.

(** [s[:-n]] for a positive [n] *)
Definition drop_last (n : nat) (s : string) : string :=
  substring 0 (String.length s - n) s.

(** The clean-up of the reply in [extract_job_from_text]: the reply is
    stripped, the opening marker of a code block is taken out, then the
    closing one. *)
Definition clean_response (raw : string) : string :=
  let text := strip raw in
  let text :=
    if Text.startswith "```json" text
    then strip (replace "```json" "" text)
    else text in
  if endswith "```" text
  then strip (drop_last 3 text)
  else text.

(** What [json.loads] hands back: a mapping or any other value. In [Val]
    the constructor [PyObj] stands for a float. *)
Inductive pyobj : Type :=
| Dict (d : gmap string pyval)
| Val (v : pyval).

(** [bool(o)] *)
Definition obj_truthy (o : pyobj) : bool :=
  match o with
  | Dict d => negb (Nat.eqb (size d) 0)
  | Val v => truthy v
  end.

(** [extract_job_from_text]. [generate] stands for the call of the model
    on the prompt built from the message and [loads] for [json.loads];
    each gives [None] when the call raises, and the [except] clause then
    returns [None]. The two [print] calls are left out. *)
Definition extract_job_from_text (generate : string → option string)
    (loads : string → option pyobj) (message : string) : pyobj :=
  match generate message with
  | None => Val PyNone
  | Some raw =>
      match loads (clean_response raw) with
      | Some job => job
      | None => Val PyNone
      end
  end.

(** The two status texts of [process_input]. *)
Inductive status : Type :=
| CouldNotParse
| ParsedAndScored.

Definition newline : string := String (ascii_of_nat 10) EmptyString.

(** [score_job] applied to whatever was extracted: only a mapping has
    [get]. *)
Definition score_job_of (o : pyobj) : outcome ScoreResult :=
  match o with
  | Dict job => score_job job
  | Val _ => Raises AttributeError
  end.

(** [process_input]: the outcome of the call and the content of
    scored_jobs.json after it, where [log] is the content before.
    [dumps] stands for [json.dumps(_, indent=2)], the text that
    [json.dump] writes as well. *)
Definition process_input (generate : string → option string)
    (loads : string → option pyobj) (dumps : gmap string pyval → string)
    (message : string) (log : string)
  : outcome (status * option string) * string :=
  let job_info := extract_job_from_text generate loads message in
  if negb (obj_truthy job_info) then (Returns (CouldNotParse, None), log)
  else
    match score_job_of job_info, job_info with
    | Returns scored, Dict job =>
        let job_info := update_with job scored in
        (Returns (ParsedAndScored, Some (dumps job_info)),
         log +:+ dumps job_info +:+ "," +:+ newline)
    | Returns _, Val _ => (Raises AttributeError, log)
    | Raises e, _ => (Raises e, log)
    end.

Fixpoint all_space (s : string) : bool :=
  match s with
  | EmptyString => true
  | String c s' => is_space c && all_space s'
  end.

Definition space_opt (o : option ascii) : bool :=
  match o with
  | Some c => is_space c
  | None => true
  end.

(** A text that is not empty and has no white space at either end. *)
Definition trimmed (s : string) : bool :=
  negb (space_opt (Text.head s)) && negb (space_opt (last_char None s)).

(** ** The record built from a job-board response (src/linkedin_parser.py) *)

(** The mapping [job_info] that [fetch_job_from_linkedin] builds from the
    decoded response [data]. *)
Definition linkedin_job_info (data : gmap string pyval) : gmap string pyval :=
  {[ "job_title" := dict_get data "job_title" (PyStr "");
     "company_name" := dict_get data "company_name" (PyStr "");
     "location" := dict_get data "location" (PyStr "");
     "job_description" := dict_get data "description" (PyStr "");
     "experience_required" := PyStr "";
     "tech_stack" := PyList [];
     "contact_info" := PyList [] ]}.

(** [fetch_job_from_linkedin]. [response] stands for the request and the
    decoding of its body, [None] when either raises; a decoded value that
    is not a mapping has no [get], and the [except] clause returns [None]
    for it too. *)
Definition fetch_job_from_linkedin (response : option pyobj)
  : option (gmap string pyval) :=
  match response with
  | Some (Dict data) => Some (linkedin_job_info data)
  | _ => None
  end.

Definition seven_keys : gset string :=
  {[ "job_title"; "company_name"; "location"; "job_description";
     "experience_required"; "tech_stack"; "contact_info" ]}.

Definition linkedin_keys : list string :=
  ["description"; "job_title"; "company_name"; "location"].

(** ** Stand-ins for the outside calls, for the sample runs *)

Definition canned (reply : option string) : string → option string :=
  λ _, reply.

Definition sample_loads (text : string) : option pyobj :=
  if String.eqb text "{}" then Some (Dict ∅)
  else if String.eqb text "[1, 2, 3]" then Some (Val (PyList [PyInt 1; PyInt 2; PyInt 3]))
  else if String.eqb text "{acme}" then Some (Dict acme_plain)
  else if String.eqb text "{null description}" then Some (Dict null_description)
  else None.

Definition sample_dumps (job : gmap string pyval) : string :=
  "{" +:+ field_text job "job_title" +:+ ": " +:+ field_text job "tier" +:+ "}".

Definition sample_response : gmap string pyval :=
  {[ "job_title" := PyStr "Data Analyst";
     "company_name" := PyStr "Flipkart";
     "description" := PyStr "Hybrid role, 1-2 years of experience, permanent";
     "job_description" := PyStr "ignored";
     "via" := PyStr "job board" ]}.

(** ** The second front end (src/tempCodeRunnerFile.py) *)

Module Runner.

(** [re.findall(r"\{[^{}]+\}", s, re.DOTALL)]: the groups that open with a
    brace, go on with one or more characters that are not braces and
    close with a brace, from left to right. [cur] is the text gathered
    since the last opening brace, if no brace has come after it. *)
Fixpoint findall_from (cur : option string) (s : string) : list string :=
  match s with
  | EmptyString => []
  | String c s' =>
      if Ascii.eqb c "{" then findall_from (Some "") s'
      else if Ascii.eqb c "}" then
        match cur with
        | Some inner =>
            if String.eqb inner "" then findall_from None s'
            else ("{" +:+ inner +:+ "}") :: findall_from None s'
        | None => findall_from None s'
        end
      else findall_from (option_map (λ inner, inner +:+ String c "") cur) s'
  end.

Definition findall_objects (s : string) : list string := findall_from None s.

(** The text from the first opening brace on, if there is one. *)
Fixpoint find_brace (s : string) : option string :=
  match s with
  | EmptyString => None
  | String c s' => if Ascii.eqb c "{" then Some s else find_brace s'
  end.

(** [result[result.find("{"):]] when a brace is found, [result] otherwise. *)
Definition from_first_brace (result : string) : string :=
  match find_brace result with
  | Some t => t
  | None => result
  end.

(** The clean-up of the reply in [process_job_with_llm]. *)
Definition clean_output (raw : string) : string :=
  strip (replace "```" "" (replace "```json" "" (strip raw))).

(** [json.loads] on one of the groups found. Such a text opens with a
    brace, so the value is a mapping or the call raises; any other value
    is counted with the failures. *)
Definition loads_object (loads : string → option pyobj) (text : string)
  : option (gmap string pyval) :=
  match loads text with
  | Some (Dict d) => Some d
  | _ => None
  end.

(** [process_job_with_llm]. With exactly two groups the two mappings are
    merged by [job_data.update(score_data)]; otherwise the text from the
    first brace on is parsed as a whole. [None] is returned when anything
    raises. *)
Definition process_job_with_llm (generate : string → option string)
    (loads : string → option pyobj) (message : string) : pyobj :=
  match generate message with
  | None => Val PyNone
  | Some raw =>
      let result := clean_output raw in
      match findall_objects result with
      | [m0; m1] =>
          match loads_object loads m0, loads_object loads m1 with
          | Some job_data, Some score_data => Dict (score_data ∪ job_data)
          | _, _ => Val PyNone
          end
      | _ =>
          match loads (from_first_brace result) with
          | Some o => o
          | None => Val PyNone
          end
      end
  end.

(** [\d] below 256 *)
Definition is_digit (c : ascii) : bool := Text.between 48 57 c.

Definition linkedin_prefix : string := "https://www.linkedin.com/jobs/view/".

(** The longest run of digits at the start of [s]. *)
Fixpoint take_digits (s : string) : string :=
  match s with
  | EmptyString => EmptyString
  | String c s' => if is_digit c then String c (take_digits s') else EmptyString
  end.

(** What is left of [s] after the literal [p], if [s] starts with it. *)
Fixpoint strip_prefix (p s : string) : option string :=
  match p with
  | EmptyString => Some s
  | String a p' =>
      match s with
      | EmptyString => None
      | String c s' => if Ascii.eqb a c then strip_prefix p' s' else None
      end
  end.

(** The pattern [https://www\.linkedin\.com/jobs/view/\d+] matched at the
    start of [s]. *)
Definition match_url_here (s : string) : option string :=
  match strip_prefix linkedin_prefix s with
  | Some rest =>
      if String.eqb (take_digits rest) "" then None
      else Some (linkedin_prefix +:+ take_digits rest)
  | None => None
  end.

(** [re.search(pattern, s)] followed by [group(0)]. *)
Fixpoint search_linkedin_url (s : string) : option string :=
  match match_url_here s with
  | Some url => Some url
  | None =>
      match s with
      | EmptyString => None
      | String _ s' => search_linkedin_url s'
      end
  end.

(** How the scraper process ended: with an exit code and its two
    streams, or with [subprocess.run] raising (time-out, missing
    program). *)
Inductive scraper_run : Type :=
| Exited (returncode : Z) (stdout stderr : string)
| RunRaised.

(** The status texts of [process_input]; the text of a caught exception
    is left out. *)
Inductive status : Type :=
| NoInput
| ScraperFailed (stderr : string)
| ScraperError
| CouldNotParse
| Scored.

(** The message to hand to the model: the scraped data when the message
    holds a job link, the message itself otherwise. *)
Definition resolve_link (scrape : string → scraper_run)
    (loads : string → option pyobj) (dumps : pyobj → string) (message : string)
  : status + string :=
  match search_linkedin_url message with
  | Some linkedin_url =>
      match scrape linkedin_url with
      | Exited returncode stdout stderr =>
          if negb (returncode =? 0) then inl (ScraperFailed stderr)
          else
            match loads (strip stdout) with
            | Some scraped_data => inr (dumps scraped_data)
            | None => inl ScraperError
            end
      | RunRaised => inl ScraperError
      end
  | None => inr message
  end.

(** [process_input]: the status, the returned text and the content of
    scored_jobs.json after the call. [ocr] stands for
    [pytesseract.image_to_string], [scrape] for the run of the scraper on
    a link, [generate] for the call of the model, [loads] and [dumps] for
    [json.loads] and [json.dumps(_, indent=2)]. *)
Definition process_input {image : Type} (ocr : image → string)
    (scrape : string → scraper_run) (generate : string → option string)
    (loads : string → option pyobj) (dumps : pyobj → string)
    (text_message : string) (img : option image) (log : string)
  : (status * option string) * string :=
  let message := strip text_message in
  let message :=
    if String.eqb message ""
    then match img with
         | Some i => strip (ocr i)
         | None => message
         end
    else message in
  if String.eqb message "" then ((NoInput, None), log)
  else
    match resolve_link scrape loads dumps message with
    | inl failure => ((failure, None), log)
    | inr message =>
        let job_info := process_job_with_llm generate loads message in
        if negb (obj_truthy job_info) then ((CouldNotParse, None), log)
        else ((Scored, Some (dumps job_info)),
              log +:+ dumps job_info +:+ "," +:+ newline)
    end.

End Runner.

(** A text without braces. *)
Fixpoint brace_free (s : string) : bool :=
  match s with
  | EmptyString => true
  | String c s' => negb (Ascii.eqb c "{") && negb (Ascii.eqb c "}") && brace_free s'
  end.

Fixpoint all_digits (s : string) : bool :=
  match s with
  | EmptyString => true
  | String c s' => Runner.is_digit c && all_digits s'
  end.

Definition digit_opt (o : option ascii) : bool :=
  match o with
  | Some c => Runner.is_digit c
  | None => false
  end.

Definition sample_objects (text : string) : option pyobj :=
  if String.eqb text "{job}" then Some (Dict {[ "job_title" := PyStr "Dev"; "score" := PyInt 1 ]})
  else if String.eqb text "{evaluation}" then Some (Dict {[ "score" := PyInt 9; "tier" := PyStr "medium" ]})
  else if String.eqb text "{job} Hope this helps!" then None
  else None.

Definition sample_obj_dumps (o : pyobj) : string :=
  match o with
  | Dict d => "{" +:+ field_text d "job_title" +:+ "}"
  | Val _ => "value"
  end.

Definition sample_scrape (url : string) : Runner.scraper_run :=
  if String.eqb url "https://www.linkedin.com/jobs/view/404"
  then Runner.Exited 1 "" "not found"
  else Runner.Exited 0 "{job}" "".

(** The number of backquotes at the start of a text. *)
Fixpoint ticks (s : string) : nat :=
  match s with
  | EmptyString => 0
  | String c s' => if Ascii.eqb c "`" then S (ticks s') else 0
  end.

(** * Properties *)

(** ** Text *)

Section TextFacts.

Import Text.

Lemma append_assoc (a b c : string) : (a +:+ b) +:+ c = a +:+ b +:+ c.
Proof. induction a as [|x a IH]; simpl; [reflexivity | by rewrite IH]. Qed.

Lemma lower_append (a b : string) : lower (a +:+ b) = lower a +:+ lower b.
Proof. induction a as [|x a IH]; simpl; [reflexivity | by rewrite IH]. Qed.

Lemma length_lower (s : string) : String.length (lower s) = String.length s.
Proof. induction s as [|x s IH]; simpl; [reflexivity | by rewrite IH]. Qed.

(** Lowering keeps a character inside or outside the word class. *)
Lemma is_word_lower_char (c : ascii) : is_word (lower_char c) = is_word c.
Proof. destruct c as [[] [] [] [] [] [] [] []]; reflexivity. Qed.

Lemma word_opt_last_lower (prev : option ascii) (s : string) :
  word_opt (last_char (lower_char <$> prev) (lower s)) = word_opt (last_char prev s).
Proof.
  revert prev. induction s as [|x s IH]; intros prev; simpl.
  - destruct prev; simpl; [apply is_word_lower_char | reflexivity].
  - apply (IH (Some x)).
Qed.

Lemma word_opt_head_lower (s : string) :
  word_opt (head (lower s)) = word_opt (head s).
Proof. destruct s; simpl; [reflexivity | apply is_word_lower_char]. Qed.

Lemma startswith_append (k s : string) : startswith k (k +:+ s) = true.
Proof.
  induction k as [|x k IH]; simpl; [reflexivity |].
  by rewrite Ascii.eqb_refl, IH.
Qed.

Lemma startswith_extend (k s post : string) :
  startswith k s = true → startswith k (s +:+ post) = true.
Proof.
  revert s. induction k as [|x k IH]; intros s H; simpl in *; [reflexivity |].
  destruct s as [|c s]; simpl in *; [discriminate |].
  apply andb_true_iff in H as [-> H]. simpl. by apply IH.
Qed.

Lemma contains_extend (k s post : string) :
  contains k s = true → contains k (s +:+ post) = true.
Proof.
  induction s as [|c s IH]; simpl; intros H.
  - rewrite orb_false_r in H. destruct k; [| discriminate].
    by destruct post.
  - apply orb_true_iff in H as [H | H].
    + change (String c (s +:+ post)) with (String c s +:+ post).
      by rewrite (startswith_extend _ _ _ H).
    + rewrite (IH H). apply orb_true_r.
Qed.

Lemma contains_prepend (k pre s : string) :
  contains k s = true → contains k (pre +:+ s) = true.
Proof.
  intros H. induction pre as [|c pre IH]; simpl; [exact H |].
  rewrite IH. apply orb_true_r.
Qed.

(** An occurrence anywhere is found by [in]. *)
Lemma contains_occurrence (k pre post : string) :
  contains k (pre +:+ k +:+ post) = true.
Proof.
  apply contains_prepend. destruct k as [|x k]; simpl.
  - by destruct post.
  - by rewrite Ascii.eqb_refl, startswith_append.
Qed.

Lemma contains_inside (k pre mid post : string) :
  contains k mid = true → contains k (pre +:+ mid +:+ post) = true.
Proof. intros H. by apply contains_prepend, contains_extend. Qed.

Lemma contains_any_inside (ks : list string) (pre mid post : string) :
  contains_any ks mid = true → contains_any ks (pre +:+ mid +:+ post) = true.
Proof.
  unfold contains_any. rewrite !existsb_exists.
  intros (k & Hk & H). exists k. split; [exact Hk | by apply contains_inside].
Qed.

Lemma match_literal_append (w : string) (prev : option ascii) (post : string) :
  match_literal w prev (w +:+ post) = Some (last_char prev w, post).
Proof.
  revert prev. induction w as [|x w IH]; intros prev; simpl; [reflexivity |].
  by rewrite Ascii.eqb_refl, IH.
Qed.

(** The pattern [\b(w1|...|wn)\b] finds an occurrence of an alternative
    that has a boundary on either side. *)
Lemma search_words_from_bounded (ws : list string) (w pre post : string)
    (prev : option ascii) :
  In w ws →
  at_boundary (last_char prev pre) (w +:+ post) = true →
  at_boundary (last_char (last_char prev pre) w) post = true →
  search_words_from ws prev (pre +:+ w +:+ post) = true.
Proof.
  intros Hin. revert prev.
  induction pre as [|c pre IH]; intros prev Hbefore Hafter; simpl in *.
  - assert (Hhere : match_words_here ws prev (w +:+ post) = true).
    { unfold match_words_here. rewrite Hbefore. simpl.
      apply existsb_exists. exists w. split; [exact Hin |].
      by rewrite match_literal_append. }
    destruct (w +:+ post); simpl; by rewrite Hhere.
  - rewrite (IH (Some c) Hbefore Hafter). apply orb_true_r.
Qed.

Lemma last_char_append (prev : option ascii) (a b : string) :
  last_char prev (a +:+ b) = last_char (last_char prev a) b.
Proof.
  revert prev. induction a as [|c a IH]; intros prev; simpl; [reflexivity |].
  apply IH.
Qed.

Lemma last_char_nonempty (prev prev' : option ascii) (w : string) :
  w ≠ "" → last_char prev w = last_char prev' w.
Proof. destruct w; [congruence | reflexivity]. Qed.

(** In particular it finds every alternative that begins and ends with a
    word character and stands as a whole word. *)
Lemma search_words_from_occurrence (ws : list string) (w pre post : string)
    (prev : option ascii) :
  In w ws →
  word_opt (head w) = true →
  word_opt (last_char None w) = true →
  word_opt (last_char prev pre) = false →
  word_opt (head post) = false →
  search_words_from ws prev (pre +:+ w +:+ post) = true.
Proof.
  intros Hin Hfirst Hlast Hprev Hpost.
  assert (Hw : w ≠ "") by (intros ->; discriminate).
  apply search_words_from_bounded; [exact Hin | |]; unfold at_boundary.
  - assert (Hh : word_opt (head (w +:+ post)) = true) by (by destruct w).
    by rewrite Hprev, Hh.
  - by rewrite (last_char_nonempty _ None w Hw), Hlast, Hpost.
Qed.

Lemma search_words_whole_word (ws : list string) (w s : string) :
  In w ws →
  word_opt (head w) = true →
  word_opt (last_char None w) = true →
  whole_word w s →
  search_words ws s = true.
Proof.
  intros Hin Hf Hl (pre & post & -> & Hpre & Hpost).
  by apply search_words_from_occurrence.
Qed.

(** A whole word of the raw text is still one after lowering, when the
    word itself is in lower case. *)
Lemma whole_word_lower (w s : string) :
  lower w = w → whole_word w s → whole_word w (lower s).
Proof.
  intros Hw (pre & post & -> & Hpre & Hpost).
  exists (lower pre), (lower post). rewrite !lower_append, Hw.
  split; [reflexivity |]. split.
  - by rewrite <- Hpre, <- (word_opt_last_lower None pre).
  - by rewrite word_opt_head_lower.
Qed.

End TextFacts.

(** ** Reading the record *)

Lemma str_items_strings (xs : list pyval) :
  forallb is_str xs = true → str_items xs = Returns (strings_of xs).
Proof.
  induction xs as [|x xs IH]; simpl; [reflexivity |].
  intros [Hx Hxs]%andb_true_iff. destruct x; try discriminate.
  by rewrite (IH Hxs).
Qed.

Lemma py_lower_text (job : gmap string pyval) (k : string) :
  text_or_absent (job !! k) = true →
  py_lower (dict_get job k (PyStr "")) = Returns (Text.lower (field_text job k)).
Proof.
  unfold dict_get, field_text. destruct (job !! k) as [[]|]; simpl; congruence.
Qed.

Lemma read_experience_record (job : gmap string pyval) :
  experience_shape (job !! "experience_required") = true →
  read_experience job = Returns (Text.lower (experience_text job)).
Proof.
  unfold read_experience, experience_text, dict_get.
  destruct (job !! "experience_required") as [[]|]; simpl; try discriminate;
    try reflexivity.
  intros H. by rewrite (str_items_strings _ H).
Qed.

Lemma read_views_record (job : gmap string pyval) :
  job_record job = true → read_views job = Returns (record_views job).
Proof.
  unfold job_record. simpl. rewrite !andb_true_iff.
  intros [(Hd & Ht & Hc & Hl & _) He].
  unfold read_views.
  rewrite (py_lower_text _ _ Hd), (py_lower_text _ _ Ht),
    (py_lower_text _ _ Hc), (py_lower_text _ _ Hl). simpl.
  by rewrite (read_experience_record _ He).
Qed.

(** On a well-formed record the scorer returns, and what it returns is the
    rule blocks run on the record's views. *)
Lemma score_job_record (job : gmap string pyval) :
  job_record job = true →
  score_job job = Returns (finish (run_rules job (record_views job))).
Proof. intros H. unfold score_job. by rewrite (read_views_record _ H). Qed.

Lemma run_rules_later (job : gmap string pyval) (v : views) :
  run_rules job v = later_rules job v (compensation (v_desc v) (mkAcc 0 [])).
Proof. reflexivity. Qed.

(** ** Shape of the rule blocks *)

Lemma awards_nothing (a : acc) : awards 0 [] a = a.
Proof. destruct a. unfold awards. simpl. by rewrite Z.add_0_r, app_nil_r. Qed.

Lemma awards_points (p : Z) (a : acc) : awards p [] a = add_score p a.
Proof. unfold awards, add_score. by rewrite app_nil_r. Qed.

Lemma awards_tag (p : Z) (t : string) (a : acc) :
  awards p [t] a = append_tag t (add_score p a).
Proof. reflexivity. Qed.

Lemma awards_awards (p q : Z) (ts us : list string) (a : acc) :
  awards q us (awards p ts a) = awards (p + q) (ts ++ us)%list a.
Proof. unfold awards. simpl. by rewrite Z.add_assoc, app_assoc. Qed.

Lemma one_of_both (xs ys : list (Z * list string)) (f g : acc → acc) :
  one_of xs f → one_of ys g → one_of (both xs ys) (λ a, g (f a)).
Proof.
  intros (x & Hx & Hf) (y & Hy & Hg).
  exists (x.1 + y.1, (x.2 ++ y.2)%list). split.
  - unfold both. apply in_map_iff. exists (x, y). split; [reflexivity |].
    by apply in_prod.
  - intros a. simpl. by rewrite Hf, Hg, awards_awards.
Qed.

Ltac pick_award n :=
  eexists; split;
  [ match n with
    | 0%nat => left; reflexivity
    | 1%nat => right; left; reflexivity
    | 2%nat => right; right; left; reflexivity
    | 3%nat => right; right; right; left; reflexivity
    end
  | intros a; simpl;
    first [ symmetry; apply awards_nothing
          | symmetry; apply awards_points
          | reflexivity ] ].

Lemma compensation_one_of (desc : string) :
  one_of compensation_awards (compensation desc).
Proof.
  unfold compensation.
  destruct (Text.search_words _ desc); [pick_award 0%nat |].
  destruct (Text.contains _ desc); [pick_award 1%nat |].
  destruct (Text.search_words _ desc); [pick_award 2%nat | pick_award 3%nat].
Qed.

Lemma learning_one_of (desc : string) : one_of learning_awards (learning desc).
Proof.
  unfold learning.
  destruct (Text.contains_any _ desc); [pick_award 0%nat |].
  destruct (_ || _); [pick_award 1%nat | pick_award 2%nat].
Qed.

Lemma student_friendly_one_of (desc experience : string) :
  one_of student_awards (student_friendly desc experience).
Proof.
  unfold student_friendly.
  destruct (Text.search_words _ desc); [pick_award 0%nat |].
  destruct (Text.contains _ experience); [pick_award 1%nat | pick_award 2%nat].
Qed.

Lemma company_reputation_one_of (desc company : string) :
  one_of company_awards (company_reputation desc company).
Proof.
  unfold company_reputation.
  destruct (Text.contains_any _ company); [pick_award 0%nat |].
  destruct (Text.contains _ desc); [pick_award 1%nat | pick_award 2%nat].
Qed.

Lemma remote_one_of (desc location : string) :
  one_of remote_awards (remote desc location).
Proof.
  unfold remote.
  destruct (Text.contains_any _ _); [pick_award 0%nat | pick_award 1%nat].
Qed.

Lemma employment_type_one_of (desc : string) :
  one_of employment_awards (employment_type desc).
Proof.
  unfold employment_type.
  destruct (_ || _); [pick_award 0%nat |].
  destruct (Text.contains_any _ desc); [pick_award 1%nat | pick_award 2%nat].
Qed.

Lemma completeness_one_of (job : gmap string pyval) (desc : string) :
  one_of completeness_awards (completeness job desc).
Proof.
  unfold completeness.
  destruct (clarity job); simpl;
    [destruct (100 <? _); [pick_award 0%nat | pick_award 1%nat] | pick_award 2%nat].
Qed.

Lemma later_rules_one_of (job : gmap string pyval) (v : views) :
  one_of later_awards (later_rules job v).
Proof.
  unfold later_awards, later_rules.
  repeat (apply (one_of_both _ _ _ _); [| first
    [ apply completeness_one_of | apply employment_type_one_of
    | apply remote_one_of | apply company_reputation_one_of
    | apply student_friendly_one_of ]]).
  apply learning_one_of.
Qed.

Lemma run_rules_one_of (job : gmap string pyval) (v : views) :
  ∃ o, In o all_awards ∧ run_rules job v = awards o.1 o.2 (mkAcc 0 []).
Proof.
  destruct (one_of_both _ _ _ _ (compensation_one_of (v_desc v))
              (later_rules_one_of job v)) as (o & Ho & H).
  exists o. split; [exact Ho | apply H].
Qed.

Lemma all_awards_sound : Forall (λ o, sound_tags o.2) all_awards.
Proof. apply (bool_decide_unpack _). vm_compute. reflexivity. Qed.

Lemma all_awards_range : Forall (λ o, 0 ≤ o.1 ≤ 14) all_awards.
Proof. apply (bool_decide_unpack _). vm_compute. reflexivity. Qed.

Lemma vocabulary_size : length vocabulary = 11%nat.
Proof. reflexivity. Qed.

Lemma vocabulary_categories : concat categories = vocabulary.
Proof. reflexivity. Qed.

(** ** The claims *)

(** C10. For every job record the scorer returns a result whose tags all
    come from the fixed vocabulary of eleven labels, hold no label twice,
    and hold at most one tag of each rule category. *)
Theorem tags_from_vocabulary (job : gmap string pyval) :
  job_record job = true →
  ∃ r, score_job job = Returns r
    ∧ Forall (λ t, t ∈ vocabulary) (tags r)
    ∧ NoDup (tags r)
    ∧ Forall (λ c, (count_in c (tags r) ≤ 1)%nat) categories.
Proof.
  intros Hrec. eexists. split; [by apply score_job_record |].
  destruct (run_rules_one_of job (record_views job)) as (o & Ho & ->).
  pose proof all_awards_sound as Hall.
  rewrite Forall_forall in Hall. apply (Hall o). by apply list_elem_of_In.
Qed.

Lemma tags_from_vocabulary_witness :
  ∃ r, score_job acme_plain = Returns r
    ∧ Forall (λ t, t ∈ vocabulary) (tags r)
    ∧ NoDup (tags r)
    ∧ Forall (λ c, (count_in c (tags r) ≤ 1)%nat) categories.
Proof. apply tags_from_vocabulary. vm_compute. reflexivity. Defined.

(** C2. For every job record the tier of the result follows from its final
    score: high from 11 on, medium from 7 to 10, low below 7. *)
Theorem tier_from_score (job : gmap string pyval) :
  job_record job = true →
  ∃ r, score_job job = Returns r
    ∧ (11 ≤ score r → tier r = "high")
    ∧ (7 ≤ score r < 11 → tier r = "medium")
    ∧ (score r < 7 → tier r = "low").
Proof.
  intros Hrec. eexists. split; [by apply score_job_record |].
  unfold finish, tier_of. simpl.
  destruct (Z.leb_spec 11 (acc_score (run_rules job (record_views job))));
    destruct (Z.leb_spec 7 (acc_score (run_rules job (record_views job))));
    repeat split; intros; solve [reflexivity | lia].
Qed.

Lemma tier_from_score_witness :
  ∃ r, score_job scores_10 = Returns r
    ∧ (11 ≤ score r → tier r = "high")
    ∧ (7 ≤ score r < 11 → tier r = "medium")
    ∧ (score r < 7 → tier r = "low").
Proof. apply tier_from_score. vm_compute. reflexivity. Defined.

(** The four records built to land on the tier boundaries. *)
Example tier_boundaries :
  score_job scores_6 = Returns (mkResult 6 "low" ["well_paid"; "full_time"])
  ∧ score_job scores_7 = Returns (mkResult 7 "medium" ["well_paid"; "remote"; "full_time"])
  ∧ score_job scores_10
    = Returns (mkResult 10 "medium"
        ["well_paid"; "high_learning"; "student_friendly"; "remote"; "full_time"])
  ∧ score_job scores_11
    = Returns (mkResult 11 "high"
        ["well_paid"; "high_learning"; "student_friendly"; "remote"; "full_time"]).
Proof. repeat split; vm_compute; reflexivity. Qed.

(** X1. Whenever the scorer returns, the score lies between 0 and 14. *)
Lemma score_range (job : gmap string pyval) (r : ScoreResult) :
  score_job job = Returns r → 0 ≤ score r ≤ 14.
Proof.
  unfold score_job. destruct (read_views job) as [v|e]; simpl; [| discriminate].
  intros [= <-]. destruct (run_rules_one_of job v) as (o & Ho & ->).
  pose proof all_awards_range as Hall.
  rewrite Forall_forall in Hall. apply (Hall o). by apply list_elem_of_In.
Qed.

(** C3. The record whose fields are all empty scores 0, lands in the low
    tier and carries no tag, whether its experience is the empty list or
    the empty string. *)
Theorem empty_record_scores_zero :
  score_job empty_record_list = Returns (mkResult 0 "low" [])
  ∧ score_job empty_record_str = Returns (mkResult 0 "low" []).
Proof. split; vm_compute; reflexivity. Qed.

(** The same holds for the mapping with no key at all. *)
Example no_key_scores_zero : score_job ∅ = Returns (mkResult 0 "low" []).
Proof. vm_compute. reflexivity. Qed.

(** ** What the scorer depends on *)

Lemma dict_get_ext (job1 job2 : gmap string pyval) (k : string) (d : pyval) :
  job1 !! k = job2 !! k → dict_get job1 k d = dict_get job2 k d.
Proof. unfold dict_get. by intros ->. Qed.

Lemma clarity_ext (job1 job2 : gmap string pyval) :
  (∀ k, In k text_keys → job1 !! k = job2 !! k) → clarity job1 = clarity job2.
Proof.
  intros H. unfold clarity. simpl.
  rewrite !(dict_get_ext job1 job2) by (apply H; simpl; tauto).
  reflexivity.
Qed.

Lemma run_rules_ext (job1 job2 : gmap string pyval) (v : views) :
  clarity job1 = clarity job2 → run_rules job1 v = run_rules job2 v.
Proof. intros H. unfold run_rules, completeness. by rewrite H. Qed.

(** The outcome is fixed by the four text fields and by what the
    experience field reads as. *)
Lemma score_job_ext (job1 job2 : gmap string pyval) :
  (∀ k, In k text_keys → job1 !! k = job2 !! k) →
  read_experience job1 = read_experience job2 →
  score_job job1 = score_job job2.
Proof.
  intros H He. unfold score_job, read_views.
  rewrite !(dict_get_ext job1 job2) by (apply H; simpl; tauto).
  rewrite He.
  destruct (py_lower (dict_get job2 "job_description" (PyStr ""))); [| reflexivity].
  destruct (py_lower (dict_get job2 "job_title" (PyStr ""))); [| reflexivity].
  destruct (read_experience job2); [| reflexivity].
  destruct (py_lower (dict_get job2 "company_name" (PyStr ""))); [| reflexivity].
  destruct (py_lower (dict_get job2 "location" (PyStr ""))); [| reflexivity].
  simpl. by rewrite (run_rules_ext job1 job2 _ (clarity_ext _ _ H)).
Qed.

Lemma read_experience_ext (job1 job2 : gmap string pyval) :
  job1 !! "experience_required" = job2 !! "experience_required" →
  read_experience job1 = read_experience job2.
Proof.
  intros H. unfold read_experience. by rewrite !(dict_get_ext job1 job2 _ _ H).
Qed.

Lemma str_items_fmap (xs : list string) : str_items (PyStr <$> xs) = Returns xs.
Proof.
  induction xs as [|x xs IH]; [reflexivity |].
  change (str_items (PyStr <$> x :: xs))
    with (ss ← str_items (PyStr <$> xs); Returns (x :: ss)).
  by rewrite IH.
Qed.

Lemma read_experience_list (job : gmap string pyval) (xs : list string) :
  read_experience (<["experience_required" := PyList (PyStr <$> xs)]> job)
  = Returns (Text.lower (Text.join " " xs)).
Proof.
  unfold read_experience, dict_get. rewrite lookup_insert_eq. simpl.
  by rewrite str_items_fmap.
Qed.

Lemma read_experience_str (job : gmap string pyval) (s : string) :
  read_experience (<["experience_required" := PyStr s]> job)
  = Returns (Text.lower s).
Proof. unfold read_experience, dict_get. by rewrite lookup_insert_eq. Qed.

Lemma text_key_not_experience (k : string) :
  In k text_keys → "experience_required" ≠ k.
Proof. simpl. intros [<- | [<- | [<- | [<- | []]]]]; discriminate. Qed.

(** C9. Whatever the rest of the record, an experience given as a list of
    strings is scored exactly as the one string that joins them with
    spaces; a one-element list is scored as its element. *)
Theorem experience_list_as_joined (job : gmap string pyval) :
  (∀ xs : list string,
     score_job (<["experience_required" := PyList (PyStr <$> xs)]> job)
     = score_job (<["experience_required" := PyStr (Text.join " " xs)]> job))
  ∧ (∀ s : string,
     score_job (<["experience_required" := PyList [PyStr s]]> job)
     = score_job (<["experience_required" := PyStr s]> job)).
Proof.
  assert (H : ∀ xs : list string,
     score_job (<["experience_required" := PyList (PyStr <$> xs)]> job)
     = score_job (<["experience_required" := PyStr (Text.join " " xs)]> job)).
  { intros xs. apply score_job_ext.
    - intros k Hk. apply text_key_not_experience in Hk.
      by rewrite !lookup_insert_ne.
    - by rewrite read_experience_list, read_experience_str. }
  split; [exact H | intros s; apply (H [s])].
Qed.

Example experience_two_parts :
  score_job (mk_job "Dev" "Backend work" "Acme" "Pune" (PyList [PyStr "1-2"; PyStr "Years"]))
  = Returns (mkResult 2 "low" [])
  ∧ score_job (mk_job "Dev" "Backend work" "Acme" "Pune" (PyStr "1-2 Years"))
  = Returns (mkResult 2 "low" []).
Proof. split; vm_compute; reflexivity. Qed.

(** C8. The outcome of the scorer is a function of the record alone, and
    within the record of the five fields it reads: two records that agree
    on them, and so the same record scored twice, get the same score, the
    same tier and the same tags in the same order. *)
Theorem score_job_deterministic (job1 job2 : gmap string pyval) :
  same_fields job1 job2 → score_job job1 = score_job job2.
Proof.
  intros H. apply score_job_ext.
  - intros k Hk. apply H. simpl in *. tauto.
  - apply read_experience_ext, H. simpl. tauto.
Qed.

Lemma same_fields_update (job : gmap string pyval) (r : ScoreResult) :
  same_fields (update_with job r) job.
Proof.
  intros k Hk. unfold update_with.
  rewrite !lookup_insert_ne; [reflexivity | | |];
    simpl in Hk; intros <-; intuition discriminate.
Qed.

Lemma score_job_deterministic_witness :
  let scored := update_with acme_plain
    (mkResult 8 "medium" ["unpaid"; "high_learning"; "remote"; "full_time"; "clear_info"]) in
  same_fields scored acme_plain ∧ score_job scored = score_job acme_plain.
Proof.
  intros scored.
  assert (H : same_fields scored acme_plain).
  { intros k Hk. simpl in Hk.
    destruct Hk as [<- | [<- | [<- | [<- | [<- | []]]]]]; vm_compute; reflexivity. }
  split; [exact H | exact (score_job_deterministic _ _ H)].
Defined.

(** Scoring the record again after the caller has written the first result
    into it gives the same result. *)
Lemma score_job_after_update (job : gmap string pyval) (r : ScoreResult) :
  score_job (update_with job r) = score_job job.
Proof. apply score_job_ext.
  - intros k Hk. apply same_fields_update. simpl in *. tauto.
  - apply read_experience_ext, same_fields_update. simpl. tauto.
Qed.

(** ** Malformed fields *)

(** A description that is present and is not a string makes the scorer
    raise at its first line. *)
Lemma non_string_description_raises (job : gmap string pyval) (v : pyval) :
  job !! "job_description" = Some v → is_str v = false →
  score_job job = Raises AttributeError.
Proof.
  intros Hv Hs. unfold score_job, read_views, dict_get. rewrite Hv.
  destruct v; try discriminate; reflexivity.
Qed.

(** An experience that is neither a string nor a list is coerced with
    [str] and the scorer returns. *)
Lemma experience_coerced (job : gmap string pyval) (v : pyval) :
  forallb (λ k, text_or_absent (job !! k)) text_keys = true →
  job !! "experience_required" = Some v → is_list v = false →
  ∃ r, score_job job = Returns r.
Proof.
  simpl. rewrite !andb_true_iff. intros (Hd & Ht & Hc & Hl & _) Hv Hnl.
  unfold score_job, read_views.
  rewrite (py_lower_text _ _ Hd), (py_lower_text _ _ Ht),
    (py_lower_text _ _ Hc), (py_lower_text _ _ Hl). simpl.
  unfold read_experience, dict_get. rewrite Hv, Hnl. simpl. eauto.
Qed.

(** C1. The scorer does raise on fields of the wrong type: a null
    description and a numeric location raise AttributeError, a list of
    experience entries holding a number raises TypeError. *)
Theorem malformed_fields_raise :
  score_job null_description = Raises AttributeError
  ∧ score_job numeric_location = Raises AttributeError
  ∧ score_job mixed_experience = Raises TypeError.
Proof. repeat split; vm_compute; reflexivity. Qed.

Example numeric_experience_coerced :
  score_job numeric_experience = Returns (mkResult 1 "low" []).
Proof. vm_compute. reflexivity. Qed.

(** ** Compensation *)

Lemma compensation_unpaid (desc : string) (a : acc) :
  whole_word "unpaid" desc →
  compensation desc a = append_tag "unpaid" (add_score 1 a).
Proof.
  intros H. unfold compensation.
  rewrite (search_words_whole_word ["intern"; "unpaid"] "unpaid" desc);
    [reflexivity | simpl; tauto | reflexivity | reflexivity | exact H].
Qed.

(** The tags that the later blocks add never belong to the compensation
    category. *)
Lemma later_awards_no_compensation :
  Forall (λ o, count_in ["unpaid"; "negotiable"; "well_paid"] o.2 = 0%nat) later_awards.
Proof. apply (bool_decide_unpack _). vm_compute. reflexivity. Qed.

Lemma count_in_app (c ts us : list string) :
  count_in c (ts ++ us)%list = (count_in c ts + count_in c us)%nat.
Proof. unfold count_in. by rewrite filter_app, length_app. Qed.

Lemma count_in_zero (c ts : list string) (t : string) :
  count_in c ts = 0%nat → t ∈ c → t ∉ ts.
Proof.
  unfold count_in. intros H Hc Hin.
  assert (Hf : t ∈ filter (λ t, t ∈ c) ts) by (by apply list_elem_of_filter).
  destruct (filter (λ t, t ∈ c) ts); [by apply not_elem_of_nil in Hf | discriminate].
Qed.

(** C5. When the description holds both the whole word unpaid and the
    whole word salary, the compensation block takes its first branch: it
    adds 1 point and the tag unpaid, and the result holds exactly one
    compensation tag, unpaid, never well_paid or negotiable. *)
Theorem unpaid_before_salary (job : gmap string pyval) (d : string) :
  job_record job = true →
  job !! "job_description" = Some (PyStr d) →
  whole_word "unpaid" (Text.lower d) →
  whole_word "salary" (Text.lower d) →
  (∀ a, compensation (Text.lower d) a = append_tag "unpaid" (add_score 1 a))
  ∧ (∃ r, score_job job = Returns r
      ∧ r = finish (later_rules job (record_views job) (mkAcc 1 ["unpaid"]))
      ∧ count_in ["unpaid"; "negotiable"; "well_paid"] (tags r) = 1%nat
      ∧ "unpaid" ∈ tags r ∧ ("well_paid" ∉ tags r) ∧ ("negotiable" ∉ tags r)).
Proof.
  intros Hrec Hd Hunpaid _.
  split; [intros a; by apply compensation_unpaid |].
  assert (Hdesc : v_desc (record_views job) = Text.lower d).
  { simpl. unfold field_text. by rewrite Hd. }
  assert (Hrun : run_rules job (record_views job)
                 = later_rules job (record_views job) (mkAcc 1 ["unpaid"])).
  { rewrite run_rules_later, Hdesc. by rewrite compensation_unpaid. }
  eexists. split; [by apply score_job_record |]. rewrite Hrun.
  split; [reflexivity |].
  destruct (later_rules_one_of job (record_views job)) as (o & Ho & ->).
  pose proof later_awards_no_compensation as Hall.
  rewrite Forall_forall in Hall. apply list_elem_of_In, Hall in Ho.
  change (tags (finish (awards o.1 o.2 (mkAcc 1 ["unpaid"]))))
    with (["unpaid"] ++ o.2)%list.
  repeat split.
  - rewrite count_in_app, Ho. vm_compute. reflexivity.
  - apply elem_of_app. left. apply list_elem_of_singleton. reflexivity.
  - intros [H | H]%elem_of_app.
    + apply list_elem_of_singleton in H. discriminate.
    + revert H. apply (count_in_zero _ _ _ Ho), list_elem_of_In. simpl. tauto.
  - intros [H | H]%elem_of_app.
    + apply list_elem_of_singleton in H. discriminate.
    + revert H. apply (count_in_zero _ _ _ Ho), list_elem_of_In. simpl. tauto.
Qed.

Lemma unpaid_before_salary_witness :
  (∀ a, compensation (Text.lower "Unpaid trial week, then a salary") a
        = append_tag "unpaid" (add_score 1 a))
  ∧ (∃ r, score_job salary_record = Returns r
      ∧ r = finish (later_rules salary_record (record_views salary_record)
                      (mkAcc 1 ["unpaid"]))
      ∧ count_in ["unpaid"; "negotiable"; "well_paid"] (tags r) = 1%nat
      ∧ "unpaid" ∈ tags r ∧ ("well_paid" ∉ tags r) ∧ ("negotiable" ∉ tags r)).
Proof.
  apply (unpaid_before_salary salary_record "Unpaid trial week, then a salary").
  - vm_compute. reflexivity.
  - vm_compute. reflexivity.
  - exists "", " trial week, then a salary". repeat split; vm_compute; reflexivity.
  - exists "unpaid trial week, then a ", "". repeat split; vm_compute; reflexivity.
Defined.

Example salary_record_result :
  score_job salary_record = Returns (mkResult 2 "low" ["unpaid"]).
Proof. vm_compute. reflexivity. Qed.

(** The words inr, lpa, salary and stipend, standing as whole words, earn
    the third branch when the two branches before it do not apply. *)
Lemma compensation_paid_word (desc w : string) (a : acc) :
  In w ["inr"; "lpa"; "salary"; "stipend"] →
  whole_word w desc →
  Text.search_words ["intern"; "unpaid"] desc = false →
  Text.contains "negotiable" desc = false →
  compensation desc a = append_tag "well_paid" (add_score 3 a).
Proof.
  intros Hw Hword H1 H2. unfold compensation. rewrite H1, H2.
  rewrite (search_words_whole_word _ w desc); [reflexivity | | | | exact Hword];
    simpl in Hw; destruct Hw as [<- | [<- | [<- | [<- | []]]]];
    solve [simpl; tauto | reflexivity].
Qed.

(** The dollar sign is matched only with a word character on each side of
    it, since the pattern asks for a boundary before and after it. *)
Lemma compensation_dollar_between (pre post : string) (x y : ascii) (a : acc) :
  Text.is_word x = true → Text.is_word y = true →
  let desc := pre +:+ String x ("$" +:+ String y post) in
  Text.search_words ["intern"; "unpaid"] desc = false →
  Text.contains "negotiable" desc = false →
  compensation desc a = append_tag "well_paid" (add_score 3 a).
Proof.
  intros Hx Hy desc H1 H2. unfold compensation. rewrite H1, H2.
  assert (H3 : Text.search_words ["inr"; "lpa"; "$"; "salary"; "stipend"] desc = true).
  { unfold desc, Text.search_words.
    change (pre +:+ String x ("$" +:+ String y post))
      with (pre +:+ String x "" +:+ "$" +:+ String y post).
    rewrite <- append_assoc.
    apply search_words_from_bounded; [simpl; tauto | |];
      rewrite last_char_append; unfold Text.at_boundary; simpl;
      by rewrite ?Hx, ?Hy. }
  by rewrite H3.
Qed.

(** C6. A description that holds the dollar sign and none of the earlier
    compensation keywords should earn 3 points and the tag well_paid; on
    the description "$5000/month stipendless pay" the compensation block
    awards nothing, because the pattern wraps the dollar sign in word
    boundaries and no boundary stands before a dollar sign that opens the
    text or follows a space. *)
Theorem dollar_sign_unmatched :
  let desc := Text.lower "$5000/month stipendless pay" in
  Text.contains "$" desc = true
  ∧ Text.search_words ["intern"; "unpaid"] desc = false
  ∧ Text.contains "negotiable" desc = false
  ∧ (∀ a, compensation desc a = a)
  ∧ score_job dollar_record = Returns (mkResult 1 "low" []).
Proof.
  repeat split; vm_compute; reflexivity.
Qed.

Example dollar_inside_result :
  score_job dollar_inside_record = Returns (mkResult 4 "low" ["well_paid"]).
Proof. vm_compute. reflexivity. Qed.

(** ** Work mode *)

Lemma remote_awarded (desc location : string) (a : acc) :
  Text.contains_any work_mode_keywords desc = true
  ∨ Text.contains_any work_mode_keywords location = true →
  remote desc location a = append_tag "remote" (add_score 1 a).
Proof.
  intros H. unfold remote.
  assert (Hc : Text.contains_any work_mode_keywords (desc +:+ location) = true).
  { unfold Text.contains_any in *. rewrite !existsb_exists in H.
    apply existsb_exists.
    destruct H as [(k & Hk & H) | (k & Hk & H)]; exists k; (split; [exact Hk |]).
    - by apply contains_extend.
    - by apply contains_prepend. }
  unfold work_mode_keywords in Hc. by rewrite Hc.
Qed.

(** C7. The work-mode bonus should be given only when the description or
    the location holds a keyword on its own; on the record whose
    description ends in "centre" and whose location starts with "Mote"
    neither does, and the scorer still adds the point and the tag remote,
    because it searches the two texts glued together. *)
Theorem remote_across_fields :
  let desc := Text.lower (field_text garden_record "job_description") in
  let location := Text.lower (field_text garden_record "location") in
  Text.contains_any work_mode_keywords desc = false
  ∧ Text.contains_any work_mode_keywords location = false
  ∧ (∀ a, remote desc location a = append_tag "remote" (add_score 1 a))
  ∧ score_job garden_record = Returns (mkResult 2 "low" ["remote"]).
Proof.
  repeat split; vm_compute; reflexivity.
Qed.

(** ** The sample phrase *)

Lemma at_word_start_lower (p s : string) :
  Text.lower p = p → at_word_start p s → at_word_start p (Text.lower s).
Proof.
  intros Hp (pre & post & -> & Hpre).
  exists (Text.lower pre), (Text.lower post). rewrite !lower_append, Hp.
  split; [reflexivity |].
  by rewrite <- Hpre, <- (word_opt_last_lower None pre).
Qed.

Lemma truthy_text (s : string) : s ≠ "" → truthy (PyStr s) = true.
Proof.
  intros H. simpl. apply negb_true_iff. by apply String.eqb_neq.
Qed.

(** C4 fails as it is worded: with the phrase
    set between underscores, every premise holds, no compensation branch
    is taken, and the score is 7 with no tag unpaid. *)
Lemma acme_italic_scores_seven :
  let d := field_text acme_italic "job_description" in
  job_record acme_italic = true
  ∧ Text.contains phrase d = true
  ∧ field_text acme_italic "company_name" = "Acme"
  ∧ clarity acme_italic = true
  ∧ (100 <? String.length d)%nat = true
  ∧ no_other_branch (Text.lower d) (Text.lower (experience_text acme_italic)) = true
  ∧ (∀ a, compensation (Text.lower d) a = a)
  ∧ score_job acme_italic
    = Returns (mkResult 7 "medium" ["high_learning"; "remote"; "full_time"; "clear_info"])
  ∧ score_job acme_italic
    ≠ Returns (mkResult 8 "medium"
        ["unpaid"; "high_learning"; "remote"; "full_time"; "clear_info"]).
Proof.
  repeat split; try (vm_compute; reflexivity).
  vm_compute. discriminate.
Qed.

(** C4, amended. A record whose description holds the sample phrase at a
    place not directly preceded by a letter, digit or underscore, whose
    company is Acme, whose title, description, company and location are
    not empty, whose description is longer than 100 characters, and which
    takes no other branch, scores 8 in the medium tier with the tags
    unpaid, high_learning, remote, full_time and clear_info, in that
    order; student_friendly is not among them. *)
Theorem acme_phrase_scores_eight (job : gmap string pyval) (title d location : string) :
  job_record job = true →
  job !! "job_title" = Some (PyStr title) →
  job !! "job_description" = Some (PyStr d) →
  job !! "company_name" = Some (PyStr "Acme") →
  job !! "location" = Some (PyStr location) →
  title ≠ "" → location ≠ "" →
  at_word_start phrase (Text.lower d) →
  (100 < String.length d)%nat →
  no_other_branch (Text.lower d) (Text.lower (experience_text job)) = true →
  score_job job
  = Returns (mkResult 8 "medium"
      ["unpaid"; "high_learning"; "remote"; "full_time"; "clear_info"]).
Proof.
  intros Hrec Ht Hd Hc Hl Htitle Hloc (pre & post & Hdesc & Hpre) Hlen Hno.
  rewrite (score_job_record _ Hrec). f_equal.
  unfold no_other_branch in Hno. rewrite !andb_true_iff, !negb_true_iff in Hno.
  destruct Hno as [[Hstudent Hexp] Hstartup].
  assert (Hviews : record_views job
                   = mkViews (Text.lower d) (Text.lower title)
                       (Text.lower (experience_text job)) "acme"
                       (Text.lower location)).
  { unfold record_views, field_text. by rewrite Ht, Hd, Hc, Hl. }
  assert (Hclar : clarity job = true).
  { unfold clarity, dict_get. simpl. rewrite Ht, Hd, Hc, Hl.
    rewrite !truthy_text; [reflexivity | exact Hloc | discriminate | | exact Htitle].
    intros ->. simpl in Hlen. lia. }
  assert (Hlong : (100 <? Z.of_nat (String.length (Text.lower d))) = true).
  { rewrite length_lower. apply Z.ltb_lt. lia. }
  assert (Hunpaid : whole_word "unpaid" (Text.lower d)).
  { exists pre, (" internship, remote, full-time, mentorship provided" +:+ post).
    split; [exact Hdesc | split; [exact Hpre | reflexivity]]. }
  assert (Hlearn : Text.contains_any
            ["mentorship"; "training"; "learning"; "hands-on"] (Text.lower d) = true).
  { rewrite Hdesc. apply contains_any_inside. vm_compute. reflexivity. }
  assert (Hremote : Text.contains_any ["remote"; "hybrid"; "work from home"]
            (Text.lower d +:+ Text.lower location) = true).
  { rewrite Hdesc, !append_assoc. apply contains_any_inside.
    vm_compute. reflexivity. }
  assert (Hfull : Text.contains "full-time" (Text.lower d) = true).
  { rewrite Hdesc. apply contains_inside. vm_compute. reflexivity. }
  unfold run_rules. rewrite Hviews. simpl v_desc. simpl v_experience.
  simpl v_company. simpl v_location.
  rewrite (compensation_unpaid _ _ Hunpaid).
  unfold learning. rewrite Hlearn.
  unfold student_friendly. rewrite Hstudent, Hexp.
  unfold company_reputation. rewrite Hstartup.
  replace (Text.contains_any _ "acme") with false by (vm_compute; reflexivity).
  unfold remote. rewrite Hremote.
  unfold employment_type. rewrite Hfull. simpl orb.
  unfold completeness. rewrite Hclar, Hlong.
  reflexivity.
Qed.

Lemma acme_phrase_scores_eight_witness :
  score_job acme_plain
  = Returns (mkResult 8 "medium"
      ["unpaid"; "high_learning"; "remote"; "full_time"; "clear_info"]).
Proof.
  apply (acme_phrase_scores_eight acme_plain "Marketing Assistant"
    "We offer an unpaid internship, remote, full-time, mentorship provided. Send your resume to the hiring team before Friday."
    "Pune"); try (vm_compute; reflexivity); try discriminate.
  - exists "we offer an ", ". send your resume to the hiring team before friday.".
    split; vm_compute; reflexivity.
  - apply Nat.ltb_lt. vm_compute. reflexivity.
Defined.

(** * Further properties of the scorer *)

Lemma score_range_witness : 0 ≤ score (mkResult 14 "high"
  ["well_paid"; "high_learning"; "student_friendly"; "reputed_company";
   "remote"; "full_time"; "clear_info"]) ≤ 14.
Proof. apply (score_range best_record). vm_compute. reflexivity. Defined.

(** Both ends of the range are reached. *)
Example score_range_attained :
  score_job ∅ = Returns (mkResult 0 "low" [])
  ∧ score_job best_record
    = Returns (mkResult 14 "high"
        ["well_paid"; "high_learning"; "student_friendly"; "reputed_company";
         "remote"; "full_time"; "clear_info"]).
Proof. split; vm_compute; reflexivity. Qed.

(** ** Returning and raising *)

Lemma py_lower_returns (job : gmap string pyval) (k : string) :
  (∃ s, py_lower (dict_get job k (PyStr "")) = Returns s)
  ↔ text_or_absent (job !! k) = true.
Proof.
  unfold dict_get, text_or_absent. destruct (job !! k) as [[]|]; simpl;
    split; intros H; solve [eauto | discriminate | destruct H; discriminate].
Qed.

Lemma py_lower_raises (job : gmap string pyval) (k : string) :
  text_or_absent (job !! k) = false →
  py_lower (dict_get job k (PyStr "")) = Raises AttributeError.
Proof.
  unfold dict_get, text_or_absent. destruct (job !! k) as [[]|]; simpl;
    solve [reflexivity | discriminate].
Qed.

Lemma str_items_raises (xs : list pyval) :
  forallb is_str xs = false → str_items xs = Raises TypeError.
Proof.
  induction xs as [|x xs IH]; simpl; [discriminate |].
  destruct x; simpl; try reflexivity. intros H. by rewrite (IH H).
Qed.

Lemma read_experience_joinable (job : gmap string pyval) :
  experience_joinable (job !! "experience_required") = true →
  ∃ s, read_experience job = Returns s.
Proof.
  unfold read_experience, experience_joinable, dict_get.
  destruct (job !! "experience_required") as [[]|]; simpl; eauto.
  intros H. rewrite (str_items_strings _ H). simpl. eauto.
Qed.

Lemma read_experience_raises (job : gmap string pyval) :
  experience_joinable (job !! "experience_required") = false →
  read_experience job = Raises TypeError.
Proof.
  unfold read_experience, experience_joinable, dict_get.
  destruct (job !! "experience_required") as [[]|]; simpl; try discriminate.
  intros H. by rewrite (str_items_raises _ H).
Qed.

Ltac outcome_cases :=
  simpl; repeat split; intros;
  repeat match goal with
         | H : ∃ _, _ |- _ => destruct H
         | H : _ ∧ _ |- _ => destruct H
         | H : _ ∨ _ |- _ => destruct H
         | H : context [(_ && false)%bool] |- _ => rewrite andb_false_r in H
         end;
  try discriminate; try congruence; eauto; try tauto.

(** X2. The scorer returns exactly on the records whose four text fields
    are strings or absent and whose experience is not a list holding a
    non-string; it raises TypeError exactly when description and title
    pass and the experience is such a list, and AttributeError otherwise. *)
Theorem score_job_returns_iff (job : gmap string pyval) :
  ((∃ r, score_job job = Returns r) ↔ readable job = true)
  ∧ (score_job job = Raises TypeError
     ↔ text_or_absent (job !! "job_description") = true
       ∧ text_or_absent (job !! "job_title") = true
       ∧ experience_joinable (job !! "experience_required") = false)
  ∧ (score_job job = Raises AttributeError
     ↔ text_or_absent (job !! "job_description") = false
       ∨ text_or_absent (job !! "job_title") = false
       ∨ (experience_joinable (job !! "experience_required") = true
          ∧ (text_or_absent (job !! "company_name") = false
             ∨ text_or_absent (job !! "location") = false))).
Proof.
  unfold readable, score_job, read_views. simpl forallb.
  destruct (text_or_absent (job !! "job_description")) eqn:Hd;
    [apply py_lower_returns in Hd as [d ->]
    | rewrite (py_lower_raises _ _ Hd); outcome_cases].
  destruct (text_or_absent (job !! "job_title")) eqn:Ht;
    [apply py_lower_returns in Ht as [t ->]
    | rewrite (py_lower_raises _ _ Ht); outcome_cases].
  destruct (experience_joinable (job !! "experience_required")) eqn:He;
    [destruct (read_experience_joinable _ He) as [e ->]
    | rewrite (read_experience_raises _ He); outcome_cases].
  destruct (text_or_absent (job !! "company_name")) eqn:Hc;
    [apply py_lower_returns in Hc as [c ->]
    | rewrite (py_lower_raises _ _ Hc); outcome_cases].
  destruct (text_or_absent (job !! "location")) eqn:Hl;
    [apply py_lower_returns in Hl as [l ->]
    | rewrite (py_lower_raises _ _ Hl); outcome_cases].
  outcome_cases.
Qed.

(** ** Letter case *)

Lemma lower_empty (s : string) : String.eqb (Text.lower s) "" = String.eqb s "".
Proof. by destruct s. Qed.

Lemma truthy_field (job : gmap string pyval) (k : string) :
  text_or_absent (job !! k) = true →
  truthy (dict_get job k PyNone)
  = negb (String.eqb (Text.lower (field_text job k)) "").
Proof.
  unfold dict_get, field_text, text_or_absent. rewrite lower_empty.
  destruct (job !! k) as [[]|]; simpl; congruence.
Qed.

Lemma clarity_record (job : gmap string pyval) :
  job_record job = true →
  clarity job
  = forallb (λ k, negb (String.eqb (Text.lower (field_text job k)) ""))
      ["job_title"; "job_description"; "company_name"; "location"].
Proof.
  unfold job_record, clarity. simpl. rewrite !andb_true_iff.
  intros [(Hd & Ht & Hc & Hl & _) _].
  by rewrite !truthy_field.
Qed.

(** X3. Scoring ignores letter case: two job records whose text fields
    and experience agree once lowered get the same outcome. *)
Theorem score_job_ignores_case (job1 job2 : gmap string pyval) :
  job_record job1 = true →
  job_record job2 = true →
  (∀ k, In k text_keys →
     Text.lower (field_text job1 k) = Text.lower (field_text job2 k)) →
  Text.lower (experience_text job1) = Text.lower (experience_text job2) →
  score_job job1 = score_job job2.
Proof.
  intros H1 H2 Hk He.
  rewrite (score_job_record _ H1), (score_job_record _ H2).
  assert (Hv : record_views job1 = record_views job2).
  { unfold record_views. rewrite He.
    by rewrite !(Hk _) by (simpl; tauto). }
  assert (Hc : clarity job1 = clarity job2).
  { rewrite (clarity_record _ H1), (clarity_record _ H2). simpl.
    by rewrite !(Hk _) by (simpl; tauto). }
  by rewrite Hv, (run_rules_ext _ _ _ Hc).
Qed.

Lemma score_job_ignores_case_witness : score_job acme_shouting = score_job acme_plain.
Proof.
  apply score_job_ignores_case; try (vm_compute; reflexivity).
  intros k Hk. simpl in Hk.
  destruct Hk as [<- | [<- | [<- | [<- | []]]]]; vm_compute; reflexivity.
Defined.

(** ** Which tags a result carries *)

Lemma one_of_tags (opts : list (Z * list string)) (f : acc → acc) (a : acc) :
  one_of opts f → acc_tags (f a) = (acc_tags a ++ acc_tags (f (mkAcc 0 [])))%list.
Proof. intros (o & _ & H). by rewrite (H a), (H (mkAcc 0 [])). Qed.

Lemma one_of_lacks (opts : list (Z * list string)) (f : acc → acc) (t : string) :
  one_of opts f → Forall (λ o, t ∉ o.2) opts → t ∉ acc_tags (f (mkAcc 0 [])).
Proof.
  intros (o & Ho & H) Hall. rewrite (H (mkAcc 0 [])). simpl.
  rewrite Forall_forall in Hall. by apply Hall, list_elem_of_In.
Qed.

Lemma before_remote_one_of (desc experience company : string) :
  one_of awards_before_remote
    (λ a, company_reputation desc company
            (student_friendly desc experience (learning desc (compensation desc a)))).
Proof.
  unfold awards_before_remote.
  apply (one_of_both _ _ (λ a, student_friendly desc experience
                                 (learning desc (compensation desc a))));
    [| apply company_reputation_one_of].
  apply (one_of_both _ _ (λ a, learning desc (compensation desc a)));
    [| apply student_friendly_one_of].
  apply (one_of_both _ _ (compensation desc));
    [apply compensation_one_of | apply learning_one_of].
Qed.

Lemma after_remote_one_of (job : gmap string pyval) (desc : string) :
  one_of awards_after_remote (λ a, completeness job desc (employment_type desc a)).
Proof.
  apply (one_of_both _ _ (employment_type desc));
    [apply employment_type_one_of | apply completeness_one_of].
Qed.

Lemma remote_not_elsewhere :
  Forall (λ o, "remote" ∉ o.2) awards_before_remote
  ∧ Forall (λ o, "remote" ∉ o.2) awards_after_remote.
Proof. split; apply (bool_decide_unpack _); vm_compute; reflexivity. Qed.

(** X4. For every job record the result carries the tag remote exactly
    when a work-mode keyword occurs in the lowered description directly
    followed by the lowered location. *)
Theorem remote_tag_iff (job : gmap string pyval) :
  job_record job = true →
  ∃ r, score_job job = Returns r
    ∧ ("remote" ∈ tags r
       ↔ Text.contains_any work_mode_keywords
           (Text.lower (field_text job "job_description")
            +:+ Text.lower (field_text job "location")) = true).
Proof.
  intros Hrec. eexists. split; [by apply score_job_record |].
  set (v := record_views job).
  change (tags (finish (run_rules job v))) with
    (acc_tags (completeness job (v_desc v) (employment_type (v_desc v)
       (remote (v_desc v) (v_location v)
          (company_reputation (v_desc v) (v_company v)
             (student_friendly (v_desc v) (v_experience v)
                (learning (v_desc v) (compensation (v_desc v) (mkAcc 0 []))))))))).
  rewrite (one_of_tags _ (λ a, completeness job (v_desc v) (employment_type (v_desc v) a))
             _ (after_remote_one_of job (v_desc v))).
  pose proof (one_of_lacks _ _ "remote" (after_remote_one_of job (v_desc v))
                (proj2 remote_not_elsewhere)) as Hafter.
  pose proof (one_of_lacks _ _ "remote"
                (before_remote_one_of (v_desc v) (v_experience v) (v_company v))
                (proj1 remote_not_elsewhere)) as Hbefore.
  simpl in Hafter, Hbefore.
  rewrite elem_of_app. unfold remote at 1.
  change (Text.lower (field_text job "job_description")) with (v_desc v).
  change (Text.lower (field_text job "location")) with (v_location v).
  unfold work_mode_keywords.
  destruct (Text.contains_any _ (v_desc v +:+ v_location v)); simpl.
  - split; [reflexivity |]. intros _. left. apply elem_of_app. right.
    by apply list_elem_of_singleton.
  - split; [| discriminate]. intros [H | H]; [by apply Hbefore in H | by apply Hafter in H].
Qed.

Lemma remote_tag_iff_witness :
  ∃ r, score_job garden_record = Returns r
    ∧ ("remote" ∈ tags r
       ↔ Text.contains_any work_mode_keywords
           (Text.lower (field_text garden_record "job_description")
            +:+ Text.lower (field_text garden_record "location")) = true).
Proof. apply remote_tag_iff. vm_compute. reflexivity. Defined.

Lemma well_paid_not_later : Forall (λ o, "well_paid" ∉ o.2) later_awards.
Proof. apply (bool_decide_unpack _). vm_compute. reflexivity. Qed.

(** X5. For every job record the result carries the tag well_paid exactly
    when the lowered description has neither intern nor unpaid as a whole
    word, does not hold negotiable, and matches the pay pattern. *)
Theorem well_paid_tag_iff (job : gmap string pyval) :
  job_record job = true →
  let desc := Text.lower (field_text job "job_description") in
  ∃ r, score_job job = Returns r
    ∧ ("well_paid" ∈ tags r
       ↔ Text.search_words ["intern"; "unpaid"] desc = false
         ∧ Text.contains "negotiable" desc = false
         ∧ Text.search_words ["inr"; "lpa"; "$"; "salary"; "stipend"] desc = true).
Proof.
  intros Hrec desc. eexists. split; [by apply score_job_record |].
  set (v := record_views job).
  change (tags (finish (run_rules job v)))
    with (acc_tags (later_rules job v (compensation desc (mkAcc 0 [])))).
  rewrite (one_of_tags _ _ _ (later_rules_one_of job v)).
  pose proof (one_of_lacks _ _ "well_paid" (later_rules_one_of job v)
                well_paid_not_later) as Hlater.
  rewrite elem_of_app. unfold compensation.
  destruct (Text.search_words ["intern"; "unpaid"] desc); simpl.
  { split; [| intros [? _]; discriminate].
    intros [H | H]; [| by apply Hlater in H].
    apply list_elem_of_singleton in H. discriminate. }
  destruct (Text.contains "negotiable" desc); simpl.
  { split; [| intros (_ & ? & _); discriminate].
    intros [H | H]; [| by apply Hlater in H].
    apply list_elem_of_singleton in H. discriminate. }
  destruct (Text.search_words _ desc); simpl.
  - split; [tauto |]. intros _. left. by apply list_elem_of_singleton.
  - split; [| intros (_ & _ & ?); discriminate].
    intros [H | H]; [| by apply Hlater in H].
    by apply not_elem_of_nil in H.
Qed.

Lemma well_paid_tag_iff_witness :
  let desc := Text.lower (field_text dollar_inside_record "job_description") in
  ∃ r, score_job dollar_inside_record = Returns r
    ∧ ("well_paid" ∈ tags r
       ↔ Text.search_words ["intern"; "unpaid"] desc = false
         ∧ Text.contains "negotiable" desc = false
         ∧ Text.search_words ["inr"; "lpa"; "$"; "salary"; "stipend"] desc = true).
Proof. apply well_paid_tag_iff. vm_compute. reflexivity. Defined.

(** ** Order of the tags and their weight *)

Lemma subseq_sublist (xs ys : list string) :
  subseq xs ys = true → sublist xs ys.
Proof.
  revert xs. induction ys as [|y ys IH]; intros [|x xs] H; simpl in H;
    try discriminate; try apply sublist_nil_l.
  case_bool_decide as Hxy.
  - subst. apply sublist_skip. by apply IH.
  - apply sublist_cons. by apply IH.
Qed.

Lemma all_awards_ordered : Forall (λ o, subseq o.2 vocabulary = true) all_awards.
Proof. apply (bool_decide_unpack _). vm_compute. reflexivity. Qed.

Lemma all_awards_weighed :
  Forall (λ o, tags_points o.2 ≤ o.1 ≤ tags_points o.2 + 3) all_awards.
Proof. apply (bool_decide_unpack _). vm_compute. reflexivity. Qed.

Lemma score_job_award (job : gmap string pyval) (r : ScoreResult) :
  score_job job = Returns r →
  ∃ o, o ∈ all_awards ∧ score r = o.1 ∧ tags r = o.2.
Proof.
  unfold score_job. destruct (read_views job) as [v|e]; simpl; [| discriminate].
  intros [= <-]. destruct (run_rules_one_of job v) as (o & Ho & ->).
  exists o. split; [by apply list_elem_of_In |]. split; reflexivity.
Qed.

(** X6. The tags of every returned result stand in the order in which the
    rule blocks run: the tag list is the vocabulary with some labels left
    out. *)
Theorem tags_in_block_order (job : gmap string pyval) (r : ScoreResult) :
  score_job job = Returns r → sublist (tags r) vocabulary.
Proof.
  intros (o & Ho & _ & ->)%score_job_award. apply subseq_sublist.
  pose proof all_awards_ordered as Hall. rewrite Forall_forall in Hall.
  by apply Hall.
Qed.

Lemma tags_in_block_order_witness :
  sublist ["well_paid"; "high_learning"; "student_friendly"; "remote"; "full_time"]
          vocabulary.
Proof.
  apply (tags_in_block_order scores_11
           (mkResult 11 "high"
              ["well_paid"; "high_learning"; "student_friendly"; "remote"; "full_time"])).
  vm_compute. reflexivity.
Defined.

(** X7. The score of every returned result is the points of its tags
    (3 for well_paid; 2 for negotiable, high_learning, student_friendly,
    reputed_company, full_time and clear_info; 1 for unpaid,
    learning_potential, startup and remote) plus at most 3 points that
    leave no tag. *)
Theorem score_explained_by_tags (job : gmap string pyval) (r : ScoreResult) :
  score_job job = Returns r →
  tags_points (tags r) ≤ score r ≤ tags_points (tags r) + 3.
Proof.
  intros (o & Ho & -> & ->)%score_job_award.
  pose proof all_awards_weighed as Hall. rewrite Forall_forall in Hall.
  by apply Hall.
Qed.

Lemma score_explained_by_tags_witness :
  tags_points ["well_paid"; "full_time"] ≤ 6 ≤ tags_points ["well_paid"; "full_time"] + 3.
Proof.
  apply (score_explained_by_tags scores_6 (mkResult 6 "low" ["well_paid"; "full_time"])).
  vm_compute. reflexivity.
Defined.

(** * The reply of the model *)

(** ** Stripping *)

Lemma lstrip_head (s : string) :
  space_opt (Text.head s) = false → lstrip s = s.
Proof. destruct s as [|c s]; simpl; [discriminate | by intros ->]. Qed.

Lemma lstrip_spaces (ws s : string) :
  all_space ws = true → lstrip (ws +:+ s) = lstrip s.
Proof.
  induction ws as [|c ws IH]; simpl; [reflexivity |].
  intros [-> H]%andb_true_iff. by apply IH.
Qed.

Lemma lstrip_lstrip (s : string) : lstrip (lstrip s) = lstrip s.
Proof.
  induction s as [|c s IH]; simpl; [reflexivity |].
  destruct (is_space c) eqn:Hc; [exact IH | simpl; by rewrite Hc].
Qed.

Lemma rstrip_all_space (ws : string) : all_space ws = true → rstrip ws = "".
Proof.
  induction ws as [|c ws IH]; simpl; [reflexivity |].
  intros [-> H]%andb_true_iff. by rewrite (IH H).
Qed.

Lemma rstrip_spaces (s ws : string) :
  all_space ws = true → rstrip (s +:+ ws) = rstrip s.
Proof.
  intros H. induction s as [|c s IH]; simpl.
  - by apply rstrip_all_space.
  - by rewrite IH.
Qed.

Lemma rstrip_end (s : string) (prev : option ascii) :
  s ≠ "" → space_opt (last_char prev s) = false → rstrip s = s.
Proof.
  revert prev. induction s as [|c s IH]; intros prev Hs Hlast; [congruence |].
  simpl in *. destruct s as [|d s].
  - simpl in *. by rewrite Hlast.
  - rewrite (IH (Some c)); [reflexivity | discriminate | exact Hlast].
Qed.

Lemma rstrip_rstrip (s : string) : rstrip (rstrip s) = rstrip s.
Proof.
  induction s as [|c s IH]; simpl; [reflexivity |].
  destruct (rstrip s) as [|d r] eqn:Hr.
  - destruct (is_space c) eqn:Hc; simpl; [reflexivity | by rewrite Hc].
  - change (rstrip (String c (String d r)))
      with (match rstrip (String d r) with
            | "" => if is_space c then "" else String c ""
            | String x y => String c (String x y)
            end).
    by rewrite IH.
Qed.

(** Stripping on the right keeps a first character that is not white
    space. *)
Lemma rstrip_head (s : string) :
  space_opt (Text.head s) = false → space_opt (Text.head (rstrip s)) = false.
Proof.
  destruct s as [|c s]; simpl; [discriminate |]. intros Hc.
  destruct (rstrip s); simpl; [by rewrite Hc | exact Hc].
Qed.

Lemma lstrip_empty_or_head (s : string) :
  lstrip s = "" ∨ space_opt (Text.head (lstrip s)) = false.
Proof.
  induction s as [|c s IH]; simpl; [by left |].
  destruct (is_space c) eqn:Hc; [exact IH | right; exact Hc].
Qed.

Lemma strip_strip (s : string) : strip (strip s) = strip s.
Proof.
  unfold strip. destruct (lstrip_empty_or_head s) as [-> | H]; [reflexivity |].
  by rewrite (lstrip_head _ (rstrip_head _ H)), rstrip_rstrip.
Qed.

Lemma head_append (s t : string) :
  s ≠ "" → Text.head (s +:+ t) = Text.head s.
Proof. destruct s; [congruence | reflexivity]. Qed.

Lemma trimmed_inv (s : string) :
  trimmed s = true →
  s ≠ "" ∧ space_opt (Text.head s) = false ∧ space_opt (last_char None s) = false.
Proof.
  unfold trimmed. rewrite andb_true_iff, !negb_true_iff. intros [Hh Hl].
  repeat split; [| exact Hh | exact Hl]. intros ->. discriminate.
Qed.

(** Stripping takes white space off both ends of a trimmed text and
    nothing else. *)
Lemma strip_around (lead s trail : string) :
  all_space lead = true → all_space trail = true → trimmed s = true →
  strip (lead +:+ s +:+ trail) = s.
Proof.
  intros Hlead Htrail (Hs & Hh & Hl)%trimmed_inv. unfold strip.
  rewrite (lstrip_spaces _ _ Hlead).
  rewrite lstrip_head by (by rewrite (head_append _ _ Hs)).
  rewrite (rstrip_spaces _ _ Htrail). by apply (rstrip_end _ None).
Qed.

Lemma append_empty_r (s : string) : s +:+ "" = s.
Proof. induction s as [|c s IH]; simpl; [reflexivity | by rewrite IH]. Qed.

Lemma strip_lead (ws s : string) :
  all_space ws = true → trimmed s = true → strip (ws +:+ s) = s.
Proof.
  intros Hws Hs. rewrite <- (append_empty_r s) at 1.
  by apply strip_around.
Qed.

Lemma strip_trail (s ws : string) :
  all_space ws = true → trimmed s = true → strip (s +:+ ws) = s.
Proof. intros Hws Hs. by apply (strip_around "" s ws). Qed.

(** X8. The text handed to the parser never has white space at either
    end: stripping the cleaned reply again changes nothing. *)
Theorem clean_response_stripped (raw : string) :
  strip (clean_response raw) = clean_response raw.
Proof.
  unfold clean_response.
  destruct (Text.startswith "```json" (strip raw));
    match goal with
    | |- context [endswith "```" ?t] => destruct (endswith "```" t)
    end; apply strip_strip.
Qed.

(** ** Replacing and cutting *)

Lemma replace_from_absent (old new s : string) :
  Text.contains old s = false → replace_from old new 0 s = s.
Proof.
  induction s as [|c s IH]; simpl; [reflexivity |].
  intros [H1 H2]%orb_false_iff. rewrite H1. by rewrite (IH H2).
Qed.

Lemma replace_from_skip (old new p rest : string) :
  replace_from old new (String.length p) (p +:+ rest) = replace_from old new 0 rest.
Proof.
  induction p as [|c p IH]; simpl; [| exact IH].
  destruct rest; reflexivity.
Qed.

(** An occurrence at the very start is replaced and the search goes on
    after it. *)
Lemma replace_at_start (c : ascii) (old' new rest : string) :
  replace (String c old') new (String c old' +:+ rest)
  = new +:+ replace (String c old') new rest.
Proof.
  unfold replace. simpl. rewrite Ascii.eqb_refl, startswith_append. simpl.
  by rewrite Nat.sub_0_r, replace_from_skip.
Qed.

Lemma length_append (s t : string) :
  String.length (s +:+ t) = (String.length s + String.length t)%nat.
Proof. induction s as [|c s IH]; simpl; [reflexivity | by rewrite IH]. Qed.

Lemma substring_whole (s : string) : substring 0 (String.length s) s = s.
Proof. induction s as [|c s IH]; simpl; [reflexivity | by rewrite IH]. Qed.

Lemma substring_front (s t : string) :
  substring 0 (String.length s) (s +:+ t) = s.
Proof.
  induction s as [|c s IH]; simpl; [by destruct t | by rewrite IH].
Qed.

Lemma substring_back (s t : string) :
  substring (String.length s) (String.length t) (s +:+ t) = t.
Proof.
  induction s as [|c s IH]; simpl; [apply substring_whole | exact IH].
Qed.

Lemma endswith_append (s k : string) : endswith k (s +:+ k) = true.
Proof.
  unfold endswith. rewrite length_append.
  replace (String.length s + String.length k - String.length k)%nat
    with (String.length s) by lia.
  rewrite substring_back, String.eqb_refl, andb_true_r.
  apply Nat.leb_le. lia.
Qed.

Lemma drop_last_append (s k : string) :
  drop_last (String.length k) (s +:+ k) = s.
Proof.
  unfold drop_last. rewrite length_append.
  replace (String.length s + String.length k - String.length k)%nat
    with (String.length s) by lia.
  apply substring_front.
Qed.

Lemma trimmed_fenced (inner : string) : trimmed ("```json" +:+ inner +:+ "```") = true.
Proof.
  unfold trimmed. simpl Text.head.
  change ("```json" +:+ inner +:+ "```") with ("```json" +:+ (inner +:+ "```")).
  rewrite <- append_assoc, last_char_append. reflexivity.
Qed.

Lemma trimmed_before_fence (body ws : string) :
  trimmed body = true → trimmed (body +:+ ws +:+ "```") = true.
Proof.
  intros (Hs & Hh & _)%trimmed_inv. unfold trimmed.
  rewrite (head_append _ _ Hs), Hh.
  rewrite <- append_assoc, last_char_append. reflexivity.
Qed.

(** X9. A reply that is a code block marked json around a trimmed body,
    with white space allowed around the block and inside the markers, is
    cleaned to the body itself, provided the opening marker does not occur
    again after its first place. *)
Theorem clean_response_fenced (lead ws1 body ws2 trail : string) :
  all_space lead = true → all_space ws1 = true →
  all_space ws2 = true → all_space trail = true →
  trimmed body = true →
  Text.contains "```json" (ws1 +:+ body +:+ ws2 +:+ "```") = false →
  clean_response (lead +:+ "```json" +:+ ws1 +:+ body +:+ ws2 +:+ "```" +:+ trail)
  = body.
Proof.
  intros Hlead Hws1 Hws2 Htrail Hbody Habsent. unfold clean_response.
  assert (Hstrip : strip (lead +:+ "```json" +:+ ws1 +:+ body +:+ ws2 +:+ "```" +:+ trail)
                   = "```json" +:+ ws1 +:+ body +:+ ws2 +:+ "```").
  { transitivity
      (strip (lead +:+ ("```json" +:+ (ws1 +:+ body +:+ ws2) +:+ "```") +:+ trail)).
    - by rewrite !append_assoc.
    - rewrite (strip_around lead _ trail Hlead Htrail
                 (trimmed_fenced (ws1 +:+ body +:+ ws2))).
      by rewrite !append_assoc. }
  rewrite Hstrip, (startswith_append "```json").
  rewrite (replace_at_start _ "``json" "").
  assert (Hrest : replace "```json" "" (ws1 +:+ body +:+ ws2 +:+ "```")
                  = ws1 +:+ body +:+ ws2 +:+ "```")
    by (by apply replace_from_absent).
  rewrite Hrest. simpl ("" +:+ _).
  rewrite (strip_lead ws1 (body +:+ ws2 +:+ "```") Hws1
             (trimmed_before_fence _ _ Hbody)).
  rewrite <- (append_assoc body ws2 "```").
  rewrite endswith_append.
  change (drop_last 3 ((body +:+ ws2) +:+ "```"))
    with (drop_last (String.length "```") ((body +:+ ws2) +:+ "```")).
  rewrite (drop_last_append (body +:+ ws2) "```").
  by apply strip_trail.
Qed.

Lemma clean_response_fenced_witness :
  clean_response ("" +:+ "```json" +:+ newline +:+ "[1, 2, 3]" +:+ newline
                  +:+ "```" +:+ " ")
  = "[1, 2, 3]".
Proof. apply clean_response_fenced; vm_compute; reflexivity. Defined.

(** * The input pipeline *)

Lemma readable_returns (job : gmap string pyval) :
  readable job = true → ∃ r, score_job job = Returns r.
Proof.
  unfold readable. simpl. rewrite !andb_true_iff.
  intros [(Hd & Ht & Hc & Hl & _) He].
  unfold score_job, read_views.
  rewrite (py_lower_text _ _ Hd), (py_lower_text _ _ Ht),
    (py_lower_text _ _ Hc), (py_lower_text _ _ Hl). simpl.
  destruct (read_experience_joinable _ He) as [e ->]. simpl. eauto.
Qed.

Lemma unreadable_raises (job : gmap string pyval) :
  readable job = false → ∃ e, score_job job = Raises e.
Proof.
  intros Hno. destruct (score_job job) as [r|e] eqn:Hs; [| eauto].
  exfalso. revert Hs Hno. unfold score_job, read_views, readable. simpl forallb.
  destruct (text_or_absent (job !! "job_description")) eqn:Hd;
    [apply py_lower_returns in Hd as [d ->]
    | rewrite (py_lower_raises _ _ Hd); discriminate].
  destruct (text_or_absent (job !! "job_title")) eqn:Ht;
    [apply py_lower_returns in Ht as [t ->]
    | rewrite (py_lower_raises _ _ Ht); discriminate].
  destruct (experience_joinable (job !! "experience_required")) eqn:He;
    [destruct (read_experience_joinable _ He) as [e ->]
    | rewrite (read_experience_raises _ He); discriminate].
  destruct (text_or_absent (job !! "company_name")) eqn:Hc;
    [apply py_lower_returns in Hc as [c ->]
    | rewrite (py_lower_raises _ _ Hc); discriminate].
  destruct (text_or_absent (job !! "location")) eqn:Hl;
    [apply py_lower_returns in Hl as [l ->]
    | rewrite (py_lower_raises _ _ Hl); discriminate].
  discriminate.
Qed.

Section Pipeline.

Variable generate : string → option string.
Variable loads : string → option pyobj.
Variable dumps : gmap string pyval → string.

(** X10. When the call of the model fails, or its cleaned reply does not
    parse, or it parses to a value that counts as false (an empty mapping,
    null, an empty list or text, zero), [process_input] reports that the
    job could not be parsed, returns no record and leaves the log as it
    was. *)
Theorem process_input_could_not_parse (message log : string) :
  generate message = None
  ∨ (∃ raw, generate message = Some raw
       ∧ (loads (clean_response raw) = None
          ∨ ∃ o, loads (clean_response raw) = Some o ∧ obj_truthy o = false)) →
  process_input generate loads dumps message log
  = (Returns (CouldNotParse, None), log).
Proof.
  intros H. unfold process_input.
  assert (Hfalse : obj_truthy (extract_job_from_text generate loads message) = false).
  { unfold extract_job_from_text.
    destruct H as [-> | (raw & -> & [-> | (o & -> & Ho)])];
      [reflexivity | reflexivity | exact Ho]. }
  by rewrite Hfalse.
Qed.

(** X11. When the cleaned reply parses to a non-empty mapping that the
    scorer can read, [process_input] reports success, returns the dumped
    record and appends exactly that text, a comma and a line break to the
    log. The record it dumps is the extracted one with score, tier and
    tags set to the scorer's result and every other key untouched, and
    scoring that record again gives the same result. *)
Theorem process_input_scored (message log raw : string) (job : gmap string pyval) :
  generate message = Some raw →
  loads (clean_response raw) = Some (Dict job) →
  size job ≠ 0%nat →
  readable job = true →
  ∃ r stored,
    score_job job = Returns r
    ∧ process_input generate loads dumps message log
      = (Returns (ParsedAndScored, Some (dumps stored)),
         log +:+ dumps stored +:+ "," +:+ newline)
    ∧ stored !! "score" = Some (PyInt (score r))
    ∧ stored !! "tier" = Some (PyStr (tier r))
    ∧ stored !! "tags" = Some (PyList (PyStr <$> tags r))
    ∧ (∀ k, k ≠ "score" → k ≠ "tier" → k ≠ "tags" → stored !! k = job !! k)
    ∧ score_job stored = Returns r.
Proof.
  intros Hgen Hloads Hsize Hread.
  destruct (readable_returns _ Hread) as [r Hr].
  exists r, (update_with job r). split; [exact Hr |].
  split.
  { unfold process_input, extract_job_from_text. rewrite Hgen, Hloads. simpl.
    apply Nat.eqb_neq in Hsize. rewrite Hsize. simpl. by rewrite Hr. }
  unfold update_with. repeat split.
  - by rewrite lookup_insert_ne, lookup_insert_ne, lookup_insert_eq.
  - by rewrite lookup_insert_ne, lookup_insert_eq.
  - by rewrite lookup_insert_eq.
  - intros k H1 H2 H3. by rewrite !lookup_insert_ne.
  - fold (update_with job r). by rewrite score_job_after_update.
Qed.

(** X12. When the cleaned reply parses to a value that counts as true but
    is not a mapping the scorer can read (a list, a number, a text, or a
    mapping with a field of the wrong type), [process_input] raises and
    the log is left as it was. *)
Theorem process_input_raises (message log raw : string) (o : pyobj) :
  generate message = Some raw →
  loads (clean_response raw) = Some o →
  obj_truthy o = true →
  match o with
  | Dict job => readable job = false
  | Val _ => True
  end →
  ∃ e, process_input generate loads dumps message log = (Raises e, log).
Proof.
  intros Hgen Hloads Htrue Hbad.
  unfold process_input, extract_job_from_text. rewrite Hgen, Hloads, Htrue. simpl.
  destruct o as [job | v]; simpl; [| eauto].
  destruct (unreadable_raises _ Hbad) as [e ->]. eauto.
Qed.

End Pipeline.

Lemma process_input_could_not_parse_witness :
  process_input (canned (Some "```json {} ```")) sample_loads sample_dumps "hello" "log"
  = (Returns (CouldNotParse, None), "log").
Proof.
  apply process_input_could_not_parse. right.
  exists "```json {} ```". split; [reflexivity |]. right.
  exists (Dict ∅). split; vm_compute; reflexivity.
Defined.

Lemma process_input_scored_witness :
  ∃ r stored,
    score_job acme_plain = Returns r
    ∧ process_input (canned (Some " {acme} ")) sample_loads sample_dumps "hello" "log"
      = (Returns (ParsedAndScored, Some (sample_dumps stored)),
         "log" +:+ sample_dumps stored +:+ "," +:+ newline)
    ∧ stored !! "score" = Some (PyInt (score r))
    ∧ stored !! "tier" = Some (PyStr (tier r))
    ∧ stored !! "tags" = Some (PyList (PyStr <$> tags r))
    ∧ (∀ k, k ≠ "score" → k ≠ "tier" → k ≠ "tags" → stored !! k = acme_plain !! k)
    ∧ score_job stored = Returns r.
Proof.
  apply (process_input_scored (canned (Some " {acme} ")) sample_loads sample_dumps
           "hello" "log" " {acme} " acme_plain).
  - reflexivity.
  - vm_compute. reflexivity.
  - vm_compute. discriminate.
  - vm_compute. reflexivity.
Defined.

Example process_input_scored_sample :
  process_input (canned (Some " {acme} ")) sample_loads sample_dumps "hello" "log"
  = (Returns (ParsedAndScored, Some "{Marketing Assistant: medium}"),
     "log{Marketing Assistant: medium}," +:+ newline).
Proof. vm_compute. reflexivity. Qed.

Lemma process_input_raises_witness :
  ∃ e, process_input (canned (Some "[1, 2, 3]")) sample_loads sample_dumps "hello" "log"
       = (Raises e, "log").
Proof.
  apply (process_input_raises (canned (Some "[1, 2, 3]")) sample_loads sample_dumps
           "hello" "log" "[1, 2, 3]" (Val (PyList [PyInt 1; PyInt 2; PyInt 3]))).
  - reflexivity.
  - vm_compute. reflexivity.
  - vm_compute. reflexivity.
  - exact I.
Defined.

Example process_input_null_description :
  process_input (canned (Some "{null description}")) sample_loads sample_dumps "hello" "log"
  = (Raises AttributeError, "log").
Proof. vm_compute. reflexivity. Qed.

(** * The record built from a job-board response *)

Lemma dict_get_text (d : gmap string pyval) (k : string) :
  text_or_absent (d !! k) = true →
  dict_get d k (PyStr "") = PyStr (field_text d k).
Proof.
  unfold dict_get, field_text, text_or_absent.
  destruct (d !! k) as [[]|]; simpl; congruence.
Qed.

(** X13. For every decoded response whose description, job_title,
    company_name and location are strings or absent, the fetched record is
    a job record, and the scorer treats it exactly as the record made of
    those four texts with an empty experience: the description is read
    under the key description, and every other key of the response is
    dropped. *)
Theorem linkedin_record_scored (data : gmap string pyval) :
  forallb (λ k, text_or_absent (data !! k)) linkedin_keys = true →
  ∃ job, fetch_job_from_linkedin (Some (Dict data)) = Some job
    ∧ job_record job = true
    ∧ dom job = seven_keys
    ∧ score_job job
      = score_job (mk_job (field_text data "job_title") (field_text data "description")
                          (field_text data "company_name") (field_text data "location")
                          (PyStr "")).
Proof.
  simpl. rewrite !andb_true_iff. intros (Hd & Ht & Hc & Hl & _).
  eexists. split; [reflexivity |].
  unfold linkedin_job_info.
  rewrite (dict_get_text _ _ Hd), (dict_get_text _ _ Ht),
    (dict_get_text _ _ Hc), (dict_get_text _ _ Hl).
  split; [| split].
  - vm_compute. reflexivity.
  - unfold seven_keys. rewrite !dom_insert_L, dom_singleton_L. set_solver.
  - apply score_job_ext.
    + intros k Hk. simpl in Hk. unfold mk_job.
      destruct Hk as [<- | [<- | [<- | [<- | []]]]];
        repeat (first [rewrite lookup_insert_eq; reflexivity
                      | rewrite lookup_insert_ne by discriminate]).
    + apply read_experience_ext. unfold mk_job.
      repeat (first [rewrite lookup_insert_eq; reflexivity
                    | rewrite lookup_insert_ne by discriminate]).
Qed.

Lemma linkedin_record_scored_witness :
  ∃ job, fetch_job_from_linkedin (Some (Dict sample_response)) = Some job
    ∧ job_record job = true
    ∧ dom job = seven_keys
    ∧ score_job job
      = score_job (mk_job (field_text sample_response "job_title")
                          (field_text sample_response "description")
                          (field_text sample_response "company_name")
                          (field_text sample_response "location")
                          (PyStr "")).
Proof. apply linkedin_record_scored. vm_compute. reflexivity. Defined.

Example linkedin_sample_score :
  score_job (linkedin_job_info sample_response)
  = Returns (mkResult 5 "low" ["reputed_company"; "remote"; "full_time"]).
Proof. vm_compute. reflexivity. Qed.

(** * The second front end *)

(** ** Brace groups *)

Lemma brace_free_append (s t : string) :
  brace_free (s +:+ t) = brace_free s && brace_free t.
Proof.
  induction s as [|c s IH]; simpl; [reflexivity |].
  rewrite IH. by rewrite !andb_assoc.
Qed.

(** Characters that are not braces are gathered into the open group. *)
Lemma findall_from_plain (cur : option string) (t rest : string) :
  brace_free t = true →
  Runner.findall_from cur (t +:+ rest)
  = Runner.findall_from (option_map (λ inner, inner +:+ t) cur) rest.
Proof.
  revert cur. induction t as [|c t IH]; intros cur Ht; simpl in *.
  - destruct cur as [inner|]; simpl; [by rewrite append_empty_r | reflexivity].
  - apply andb_true_iff in Ht as [[Ho Hc]%andb_true_iff Ht].
    apply negb_true_iff in Ho, Hc. rewrite Ho, Hc, (IH _ Ht).
    destruct cur as [inner|]; simpl; [| reflexivity].
    by rewrite append_assoc.
Qed.

Lemma findall_from_group (cur : option string) (x rest : string) :
  brace_free x = true → x ≠ "" →
  Runner.findall_from cur ("{" +:+ x +:+ "}" +:+ rest)
  = ("{" +:+ x +:+ "}") :: Runner.findall_from None rest.
Proof.
  intros Hx Hne.
  change ("{" +:+ x +:+ "}" +:+ rest) with (String "{" (x +:+ String "}" rest)).
  change (Runner.findall_from cur (String "{" (x +:+ String "}" rest)))
    with (Runner.findall_from (Some "") (x +:+ String "}" rest)).
  rewrite (findall_from_plain _ _ _ Hx). simpl.
  apply String.eqb_neq in Hne. by rewrite Hne.
Qed.

Lemma findall_from_none_plain (t : string) :
  brace_free t = true → Runner.findall_from None t = [].
Proof.
  intros Ht. rewrite <- (append_empty_r t).
  by rewrite (findall_from_plain None t "" Ht).
Qed.

(** X14. Every group found is an opening brace, a non-empty text without
    braces and a closing brace: the finder never returns an empty pair of
    braces nor a group with another group inside. *)
Theorem findall_objects_flat (s : string) :
  Forall (λ m, ∃ inner, m = "{" +:+ inner +:+ "}"
                 ∧ inner ≠ "" ∧ brace_free inner = true)
         (Runner.findall_objects s).
Proof.
  unfold Runner.findall_objects.
  assert (H : ∀ cur, (∀ inner, cur = Some inner → brace_free inner = true) →
            Forall (λ m, ∃ inner, m = "{" +:+ inner +:+ "}"
                           ∧ inner ≠ "" ∧ brace_free inner = true)
                   (Runner.findall_from cur s)).
  { induction s as [|c s IH]; intros cur Hcur; simpl; [constructor |].
    destruct (Ascii.eqb c "{") eqn:Ho.
    { apply IH. by intros inner [= <-]. }
    destruct (Ascii.eqb c "}") eqn:Hc.
    { destruct cur as [inner|]; [| apply IH; discriminate].
      destruct (String.eqb inner "") eqn:He; [apply IH; discriminate |].
      constructor; [| apply IH; discriminate].
      exists inner. split; [reflexivity |].
      split; [by apply String.eqb_neq | by apply Hcur]. }
    apply IH. intros inner Hi. destruct cur as [i|]; [| discriminate].
    injection Hi as <-. rewrite brace_free_append, (Hcur i eq_refl). simpl.
    by rewrite Ho, Hc. }
  apply H. discriminate.
Qed.

Lemma findall_two_groups (pre x mid y post : string) :
  brace_free pre = true → brace_free x = true → brace_free mid = true →
  brace_free y = true → brace_free post = true → x ≠ "" → y ≠ "" →
  Runner.findall_objects (pre +:+ "{" +:+ x +:+ "}" +:+ mid +:+ "{" +:+ y +:+ "}" +:+ post)
  = ["{" +:+ x +:+ "}"; "{" +:+ y +:+ "}"].
Proof.
  intros Hpre Hx Hmid Hy Hpost Hxe Hye. unfold Runner.findall_objects.
  rewrite (findall_from_plain _ _ _ Hpre). simpl option_map.
  rewrite (findall_from_group _ _ _ Hx Hxe).
  rewrite (findall_from_plain _ _ _ Hmid). simpl option_map.
  rewrite (findall_from_group _ _ _ Hy Hye).
  by rewrite (findall_from_none_plain _ Hpost).
Qed.

Lemma findall_one_group (pre x post : string) :
  brace_free pre = true → brace_free x = true → brace_free post = true → x ≠ "" →
  Runner.findall_objects (pre +:+ "{" +:+ x +:+ "}" +:+ post) = ["{" +:+ x +:+ "}"].
Proof.
  intros Hpre Hx Hpost Hxe. unfold Runner.findall_objects.
  rewrite (findall_from_plain _ _ _ Hpre). simpl option_map.
  rewrite (findall_from_group _ _ _ Hx Hxe).
  by rewrite (findall_from_none_plain _ Hpost).
Qed.

Lemma find_brace_plain (pre rest : string) :
  brace_free pre = true →
  Runner.from_first_brace (pre +:+ "{" +:+ rest) = "{" +:+ rest.
Proof.
  unfold Runner.from_first_brace. intros Hpre.
  assert (H : Runner.find_brace (pre +:+ "{" +:+ rest) = Some ("{" +:+ rest)).
  { induction pre as [|c pre IH]; simpl in *; [reflexivity |].
    apply andb_true_iff in Hpre as [[Ho _]%andb_true_iff Hpre].
    apply negb_true_iff in Ho. rewrite Ho. by apply IH. }
  by rewrite H.
Qed.

Section Replies.

Variable generate : string → option string.
Variable loads : string → option pyobj.

(** X15. When the cleaned reply holds exactly two flat groups, with no
    other brace around them, and both parse to mappings, the result is
    their merge: every key of the second mapping has the second mapping's
    value, every other key keeps the value of the first. *)
Theorem two_objects_merged (message raw pre x mid y post : string)
    (job_data score_data : gmap string pyval) :
  generate message = Some raw →
  Runner.clean_output raw
  = pre +:+ "{" +:+ x +:+ "}" +:+ mid +:+ "{" +:+ y +:+ "}" +:+ post →
  brace_free pre = true → brace_free x = true → brace_free mid = true →
  brace_free y = true → brace_free post = true → x ≠ "" → y ≠ "" →
  loads ("{" +:+ x +:+ "}") = Some (Dict job_data) →
  loads ("{" +:+ y +:+ "}") = Some (Dict score_data) →
  ∃ merged,
    Runner.process_job_with_llm generate loads message = Dict merged
    ∧ (∀ k v, score_data !! k = Some v → merged !! k = Some v)
    ∧ (∀ k, score_data !! k = None → merged !! k = job_data !! k).
Proof.
  intros Hgen Hclean Hpre Hx Hmid Hy Hpost Hxe Hye Hjob Hscore.
  exists (score_data ∪ job_data). split.
  - unfold Runner.process_job_with_llm. rewrite Hgen, Hclean.
    rewrite (findall_two_groups _ _ _ _ _ Hpre Hx Hmid Hy Hpost Hxe Hye).
    unfold Runner.loads_object. by rewrite Hjob, Hscore.
  - split.
    + intros k v Hk. by apply lookup_union_Some_l.
    + intros k Hk. by apply lookup_union_r.
Qed.

(** X16. When the cleaned reply holds one flat group and no other brace,
    the parser is given the text from the opening brace to the end: what
    stands before the group is dropped, what stands after it is not. *)
Theorem single_object_parsed_from_brace (message raw pre x post : string) :
  generate message = Some raw →
  Runner.clean_output raw = pre +:+ "{" +:+ x +:+ "}" +:+ post →
  brace_free pre = true → brace_free x = true → brace_free post = true → x ≠ "" →
  Runner.process_job_with_llm generate loads message
  = match loads ("{" +:+ x +:+ "}" +:+ post) with
    | Some o => o
    | None => Val PyNone
    end.
Proof.
  intros Hgen Hclean Hpre Hx Hpost Hxe.
  unfold Runner.process_job_with_llm. rewrite Hgen, Hclean.
  rewrite (findall_one_group _ _ _ Hpre Hx Hpost Hxe).
  by rewrite (find_brace_plain pre (x +:+ "}" +:+ post) Hpre).
Qed.

End Replies.

Lemma two_objects_merged_witness :
  ∃ merged,
    Runner.process_job_with_llm (canned (Some "```json {job} ``` and {evaluation}"))
      sample_objects "hello" = Dict merged
    ∧ (∀ k v, ({[ "score" := PyInt 9; "tier" := PyStr "medium" ]} : gmap string pyval) !! k
              = Some v → merged !! k = Some v)
    ∧ (∀ k, ({[ "score" := PyInt 9; "tier" := PyStr "medium" ]} : gmap string pyval) !! k
            = None →
            merged !! k
            = ({[ "job_title" := PyStr "Dev"; "score" := PyInt 1 ]} : gmap string pyval) !! k).
Proof.
  apply (two_objects_merged (canned (Some "```json {job} ``` and {evaluation}"))
           sample_objects "hello" "```json {job} ``` and {evaluation}"
           "" "job" "  and " "evaluation" "");
    try (vm_compute; reflexivity); discriminate.
Defined.

Lemma single_object_parsed_from_brace_witness :
  Runner.process_job_with_llm (canned (Some "Sure! {job} Hope this helps!"))
    sample_objects "hello"
  = match sample_objects ("{" +:+ "job" +:+ "}" +:+ " Hope this helps!") with
    | Some o => o
    | None => Val PyNone
    end.
Proof.
  apply (single_object_parsed_from_brace (canned (Some "Sure! {job} Hope this helps!"))
           sample_objects "hello" "Sure! {job} Hope this helps!" "Sure! " "job"
           " Hope this helps!");
    try (vm_compute; reflexivity); discriminate.
Defined.

(** ** Job links *)

Lemma strip_prefix_inv (p s rest : string) :
  Runner.strip_prefix p s = Some rest → s = p +:+ rest.
Proof.
  revert s. induction p as [|a p IH]; intros s; simpl; [by intros [= ->] |].
  destruct s as [|c s]; [discriminate |].
  destruct (Ascii.eqb_spec a c) as [-> |]; [| discriminate].
  intros H. by rewrite (IH _ H).
Qed.

Lemma strip_prefix_append (p rest : string) :
  Runner.strip_prefix p (p +:+ rest) = Some rest.
Proof.
  induction p as [|a p IH]; simpl; [reflexivity |].
  by rewrite Ascii.eqb_refl.
Qed.

Lemma take_digits_split (s : string) :
  ∃ rest, s = Runner.take_digits s +:+ rest
          ∧ all_digits (Runner.take_digits s) = true
          ∧ digit_opt (Text.head rest) = false.
Proof.
  induction s as [|c s (rest & Hs & Hd & Hr)]; simpl.
  - by exists "".
  - destruct (Runner.is_digit c) eqn:Hc.
    + exists rest. simpl. rewrite Hc, Hd. by rewrite <- Hs.
    + exists (String c s). simpl. by rewrite Hc.
Qed.

Lemma match_url_here_inv (s url : string) :
  Runner.match_url_here s = Some url →
  ∃ digits rest, s = url +:+ rest
    ∧ url = Runner.linkedin_prefix +:+ digits
    ∧ digits ≠ "" ∧ all_digits digits = true
    ∧ digit_opt (Text.head rest) = false.
Proof.
  unfold Runner.match_url_here.
  destruct (Runner.strip_prefix _ s) as [after|] eqn:Hp; [| discriminate].
  apply strip_prefix_inv in Hp.
  destruct (String.eqb (Runner.take_digits after) "") eqn:He; [discriminate |].
  intros [= <-]. destruct (take_digits_split after) as (rest & Hs & Hd & Hr).
  exists (Runner.take_digits after), rest.
  repeat split; [| by apply String.eqb_neq | exact Hd | exact Hr].
  rewrite Hp.
  transitivity (Runner.linkedin_prefix +:+ Runner.take_digits after +:+ rest);
    [by rewrite <- Hs
    | exact (eq_sym (append_assoc Runner.linkedin_prefix (Runner.take_digits after) rest))].
Qed.

Lemma search_linkedin_url_parts (s url : string) :
  Runner.search_linkedin_url s = Some url →
  ∃ pre digits rest,
    s = pre +:+ url +:+ rest
    ∧ url = Runner.linkedin_prefix +:+ digits
    ∧ digits ≠ "" ∧ all_digits digits = true
    ∧ digit_opt (Text.head rest) = false.
Proof.
  induction s as [|c s IH]; simpl.
  - vm_compute. discriminate.
  - destruct (Runner.match_url_here (String c s)) as [u|] eqn:Hm.
    + intros [= <-].
      destruct (match_url_here_inv _ _ Hm) as (digits & rest & Hs & Hu & Hd).
      exists "", digits, rest. by rewrite Hs.
    + intros (pre & digits & rest & -> & Hu)%IH.
      exists (String c pre), digits, rest. split; [reflexivity | exact Hu].
Qed.

(** X17. A job link found in a message is a part of the message made of
    the fixed address and one or more digits, and it takes in every digit
    that follows: whatever comes next in the message, such as a query
    string, is left out. *)
Theorem search_linkedin_url_sound (s url : string) :
  Runner.search_linkedin_url s = Some url →
  ∃ pre digits rest,
    s = pre +:+ url +:+ rest
    ∧ url = Runner.linkedin_prefix +:+ digits
    ∧ digits ≠ "" ∧ all_digits digits = true
    ∧ digit_opt (Text.head rest) = false.
Proof.
  intros H. destruct (search_linkedin_url_parts _ _ H) as (pre & digits & rest & Hs).
  by exists pre, digits, rest.
Qed.

Lemma search_linkedin_url_sound_witness :
  ∃ pre digits rest,
    "Apply: https://www.linkedin.com/jobs/view/4012?ref=chat now"
    = pre +:+ "https://www.linkedin.com/jobs/view/4012" +:+ rest
    ∧ "https://www.linkedin.com/jobs/view/4012" = Runner.linkedin_prefix +:+ digits
    ∧ digits ≠ "" ∧ all_digits digits = true
    ∧ digit_opt (Text.head rest) = false.
Proof. apply search_linkedin_url_sound. vm_compute. reflexivity. Defined.

Lemma match_url_here_digit (d : ascii) (rest : string) :
  Runner.is_digit d = true →
  ∃ url, Runner.match_url_here (Runner.linkedin_prefix +:+ String d rest) = Some url.
Proof.
  intros Hd. unfold Runner.match_url_here. rewrite strip_prefix_append.
  simpl Runner.take_digits. rewrite Hd. simpl. eauto.
Qed.

Lemma search_linkedin_url_unfold (s : string) :
  Runner.search_linkedin_url s
  = match Runner.match_url_here s with
    | Some url => Some url
    | None =>
        match s with
        | EmptyString => None
        | String _ s' => Runner.search_linkedin_url s'
        end
    end.
Proof. destruct s; reflexivity. Qed.

(** X18. No link is found exactly when the fixed address followed by a
    digit occurs nowhere in the message. *)
Theorem search_linkedin_url_none (s : string) :
  Runner.search_linkedin_url s = None
  ↔ ∀ pre d rest, Runner.is_digit d = true →
      s ≠ pre +:+ Runner.linkedin_prefix +:+ String d rest.
Proof.
  split.
  - intros Hnone pre d rest Hd ->. revert Hnone.
    induction pre as [|c pre IH]; intros Hnone.
    + destruct (match_url_here_digit d rest Hd) as [url Hu].
      change ("" +:+ Runner.linkedin_prefix +:+ String d rest)
        with (Runner.linkedin_prefix +:+ String d rest) in Hnone.
      rewrite search_linkedin_url_unfold, Hu in Hnone. discriminate.
    + change (String c pre +:+ Runner.linkedin_prefix +:+ String d rest)
        with (String c (pre +:+ Runner.linkedin_prefix +:+ String d rest)) in Hnone.
      rewrite search_linkedin_url_unfold in Hnone.
      destruct (Runner.match_url_here _); [discriminate | by apply IH].
  - intros Hno. destruct (Runner.search_linkedin_url s) as [url|] eqn:Hs;
      [| reflexivity].
    destruct (search_linkedin_url_parts _ _ Hs)
      as (pre & digits & rest & -> & -> & Hne & Hd & _).
    destruct digits as [|d digits]; [congruence |].
    simpl in Hd. apply andb_true_iff in Hd as [Hd _].
    exfalso. apply (Hno pre d (digits +:+ rest) Hd).
    by rewrite !append_assoc.
Qed.

(** ** The second pipeline *)

Lemma resolve_link_failure (scrape : string → Runner.scraper_run)
    (loads : string → option pyobj) (dumps : pyobj → string)
    (message : string) (failure : Runner.status) :
  Runner.resolve_link scrape loads dumps message = inl failure →
  failure = Runner.ScraperError ∨ ∃ stderr, failure = Runner.ScraperFailed stderr.
Proof.
  unfold Runner.resolve_link.
  destruct (Runner.search_linkedin_url message); [| discriminate].
  destruct (scrape _) as [rc out err|]; [| intros [= <-]; by left].
  destruct (negb (rc =? 0)); [intros [= <-]; eauto |].
  destruct (loads (strip out)); [discriminate | intros [= <-]; by left].
Qed.

Section RunnerPipeline.

Context {image : Type}.
Variable ocr : image → string.
Variable scrape : string → Runner.scraper_run.
Variable generate : string → option string.
Variable loads : string → option pyobj.
Variable dumps : pyobj → string.

(** X19. Whatever the input and the outside calls, the log is touched on
    success only: with the status of success the returned text is
    appended to the log with a comma and a line break, and with every
    other status nothing is returned and the log is left as it was. *)
Theorem runner_log_only_on_success (text_message : string) (img : option image)
    (log : string) :
  match Runner.process_input ocr scrape generate loads dumps text_message img log with
  | ((Runner.Scored, out), log') =>
      ∃ text, out = Some text ∧ log' = log +:+ text +:+ "," +:+ newline
  | ((_, out), log') => out = None ∧ log' = log
  end.
Proof.
  unfold Runner.process_input.
  set (message := if String.eqb (strip text_message) "" then _ else _).
  destruct (String.eqb message ""); [by split |].
  destruct (Runner.resolve_link scrape loads dumps message) as [f|m] eqn:Hr.
  - destruct (resolve_link_failure _ _ _ _ _ Hr) as [-> | [err ->]]; by split.
  - destruct (negb (obj_truthy _)); [by split | eauto].
Qed.

(** X20. A typed text that is not blank is all that counts: the image and
    the text recognised in it play no part in the outcome. *)
Theorem runner_text_before_image (ocr' : image → string) (text_message : string)
    (img img' : option image) (log : string) :
  strip text_message ≠ "" →
  Runner.process_input ocr scrape generate loads dumps text_message img log
  = Runner.process_input ocr' scrape generate loads dumps text_message img' log.
Proof.
  intros H%String.eqb_neq. unfold Runner.process_input. by rewrite H.
Qed.

(** X21. The scraper is run for a job link only: when the typed text is
    not blank and holds no such link, the outcome is the same whatever
    the scraper would do. *)
Theorem runner_no_link_no_scraper (scrape' : string → Runner.scraper_run)
    (text_message : string) (img : option image) (log : string) :
  strip text_message ≠ "" →
  Runner.search_linkedin_url (strip text_message) = None →
  Runner.process_input ocr scrape generate loads dumps text_message img log
  = Runner.process_input ocr scrape' generate loads dumps text_message img log.
Proof.
  intros H%String.eqb_neq Hno. unfold Runner.process_input, Runner.resolve_link.
  by rewrite H, Hno.
Qed.

(** X22. When the typed text holds a job link and the scraper fails, by
    raising, by a non-zero exit code or by printing what does not parse,
    the call ends with a scraper failure status, returns nothing and
    leaves the log as it was, whatever the model would answer. *)
Theorem runner_scraper_failure (text_message url : string) (img : option image)
    (log : string) :
  strip text_message ≠ "" →
  Runner.search_linkedin_url (strip text_message) = Some url →
  scrape url = Runner.RunRaised
  ∨ (∃ returncode stdout stderr,
       scrape url = Runner.Exited returncode stdout stderr
       ∧ (returncode ≠ 0 ∨ loads (strip stdout) = None)) →
  ∃ failure,
    Runner.process_input ocr scrape generate loads dumps text_message img log
    = ((failure, None), log)
    ∧ (failure = Runner.ScraperError ∨ ∃ stderr, failure = Runner.ScraperFailed stderr).
Proof.
  intros H%String.eqb_neq Hurl Hfail.
  unfold Runner.process_input, Runner.resolve_link. cbv zeta. rewrite !H, Hurl.
  destruct Hfail as [-> | (rc & out & err & -> & Hwhy)].
  { exists Runner.ScraperError. split; [reflexivity | by left]. }
  destruct (Z.eqb_spec rc 0) as [-> | Hrc]; simpl.
  - destruct Hwhy as [Hrc | ->]; [congruence |].
    exists Runner.ScraperError. split; [reflexivity | by left].
  - exists (Runner.ScraperFailed err). split; [reflexivity | eauto].
Qed.

(** X23. A blank text with no image, or with an image in which no text
    is recognised, ends with the no-input status: nothing is returned,
    the log is left as it was, and neither the scraper nor the model has
    a say. *)
Theorem runner_no_input (text_message : string) (img : option image) (log : string) :
  strip text_message = "" →
  match img with
  | Some i => strip (ocr i) = ""
  | None => True
  end →
  Runner.process_input ocr scrape generate loads dumps text_message img log
  = ((Runner.NoInput, None), log).
Proof.
  intros Htext Himg. unfold Runner.process_input. rewrite Htext. simpl.
  destruct img as [i|]; [by rewrite Himg | reflexivity].
Qed.

End RunnerPipeline.

Lemma runner_text_before_image_witness :
  Runner.process_input (λ _ : unit, "scanned") sample_scrape (canned (Some "{job}"))
    sample_objects sample_obj_dumps " hello " (Some tt) "log"
  = Runner.process_input (λ _ : unit, "other") sample_scrape (canned (Some "{job}"))
      sample_objects sample_obj_dumps " hello " None "log".
Proof. apply runner_text_before_image. vm_compute. discriminate. Defined.

Lemma runner_no_link_no_scraper_witness :
  Runner.process_input (λ _ : unit, "scanned") sample_scrape (canned (Some "{job}"))
    sample_objects sample_obj_dumps "hello" None "log"
  = Runner.process_input (λ _ : unit, "scanned") (λ _, Runner.RunRaised)
      (canned (Some "{job}")) sample_objects sample_obj_dumps "hello" None "log".
Proof.
  apply runner_no_link_no_scraper; [vm_compute; discriminate | vm_compute; reflexivity].
Defined.

Lemma runner_scraper_failure_witness :
  ∃ failure,
    Runner.process_input (λ _ : unit, "scanned") sample_scrape (canned (Some "{job}"))
      sample_objects sample_obj_dumps "see https://www.linkedin.com/jobs/view/404" None "log"
    = ((failure, None), "log")
    ∧ (failure = Runner.ScraperError ∨ ∃ stderr, failure = Runner.ScraperFailed stderr).
Proof.
  apply (runner_scraper_failure (λ _ : unit, "scanned") sample_scrape
           (canned (Some "{job}")) sample_objects sample_obj_dumps
           "see https://www.linkedin.com/jobs/view/404"
           "https://www.linkedin.com/jobs/view/404").
  - vm_compute. discriminate.
  - vm_compute. reflexivity.
  - right. exists 1, "", "not found". split; [reflexivity | left; lia].
Defined.

Lemma runner_no_input_witness :
  Runner.process_input (λ _ : unit, "  ") sample_scrape (canned (Some "{job}"))
    sample_objects sample_obj_dumps "   " (Some tt) "log"
  = ((Runner.NoInput, None), "log").
Proof. apply runner_no_input; vm_compute; reflexivity. Defined.

Example runner_scored_sample :
  Runner.process_input (λ _ : unit, "") sample_scrape (canned (Some "```json {job} ```"))
    sample_objects sample_obj_dumps "see https://www.linkedin.com/jobs/view/77?x=1" None "log"
  = ((Runner.Scored, Some "{Dev}"), "log{Dev}," +:+ newline).
Proof. vm_compute. reflexivity. Qed.

(** ** No marker is left *)

Lemma ticks_cons (c : ascii) (s : string) :
  ticks (String c s) = if Ascii.eqb c "`" then S (ticks s) else 0%nat.
Proof. reflexivity. Qed.

Lemma startswith_tick (k : string) (n : nat) :
  (∀ s, Text.startswith k s = (n <=? ticks s)%nat) →
  ∀ s, Text.startswith (String "`" k) s = (S n <=? ticks s)%nat.
Proof.
  intros H [|c s]; [reflexivity |].
  change (Text.startswith (String "`" k) (String c s))
    with (Ascii.eqb "`" c && Text.startswith k s).
  rewrite ticks_cons, Ascii.eqb_sym.
  destruct (Ascii.eqb c "`"); [| reflexivity].
  rewrite H. reflexivity.
Qed.

Lemma startswith_ticks (s : string) :
  Text.startswith "```" s = (3 <=? ticks s)%nat.
Proof.
  revert s. do 3 apply startswith_tick. intros s. reflexivity.
Qed.

(** Taking out the closing marker leaves fewer than three backquotes in
    a row everywhere. *)
Lemma replace_from_ticks (s : string) (k : nat) :
  Text.contains "```" (replace_from "```" "" k s) = false
  ∧ ((k ≤ ticks s)%nat →
     ticks (replace_from "```" "" k s) = ((ticks s - k) mod 3)%nat).
Proof.
  revert k. induction s as [|c s IH]; intros k.
  - split; [by destruct k |]. intros _. by destruct k.
  - destruct k as [|k].
    + change (replace_from "```" "" 0 (String c s))
        with (if Text.startswith "```" (String c s)
              then "" +:+ replace_from "```" "" 2 s
              else String c (replace_from "```" "" 0 s)).
      rewrite startswith_ticks.
      destruct (Nat.leb_spec 3 (ticks (String c s))) as [Hge | Hlt].
      * change ("" +:+ replace_from "```" "" 2 s) with (replace_from "```" "" 2 s).
        destruct (IH 2%nat) as [Hno Hticks].
        split; [exact Hno |]. intros _. rewrite ticks_cons in *.
        destruct (Ascii.eqb c "`"); [| lia].
        rewrite Hticks by lia.
        replace (S (ticks s) - 0)%nat with ((ticks s - 2) + 1 * 3)%nat by lia.
        by rewrite Nat.Div0.mod_add.
      * destruct (IH 0%nat) as [Hno Hticks]. specialize (Hticks (Nat.le_0_l _)).
        rewrite Nat.sub_0_r in Hticks.
        split.
        -- change (Text.contains "```" (String c (replace_from "```" "" 0 s)))
             with (Text.startswith "```" (String c (replace_from "```" "" 0 s))
                   || Text.contains "```" (replace_from "```" "" 0 s)).
           rewrite Hno, orb_false_r, startswith_ticks. rewrite ticks_cons in *.
           destruct (Ascii.eqb c "`"); [| reflexivity].
           rewrite Hticks, Nat.mod_small by lia. apply Nat.leb_gt. lia.
        -- intros _. rewrite Nat.sub_0_r. rewrite !ticks_cons in *.
           destruct (Ascii.eqb c "`"); [| reflexivity].
           rewrite Hticks.
           rewrite (Nat.mod_small (ticks s)) by lia.
           by rewrite Nat.mod_small by lia.
    + change (replace_from "```" "" (S k) (String c s))
        with (replace_from "```" "" k s).
      destruct (IH k) as [Hno Hticks]. split; [exact Hno |].
      rewrite ticks_cons. destruct (Ascii.eqb c "`"); [| lia].
      intros Hk. rewrite Hticks by lia. f_equal.
Qed.

Lemma contains_lstrip (k s : string) :
  Text.contains k (lstrip s) = true → Text.contains k s = true.
Proof.
  induction s as [|c s IH]; simpl; [done |].
  destruct (is_space c); [| done].
  intros H. rewrite (IH H). apply orb_true_r.
Qed.

Lemma rstrip_prefix (s : string) : ∃ t, s = rstrip s +:+ t.
Proof.
  induction s as [|c s [t Ht]]; simpl; [by exists "" |].
  destruct (rstrip s) as [|d r] eqn:Hr.
  - destruct (is_space c); [by exists (String c s) |].
    exists t. change (String c s = String c ("" +:+ t)). by rewrite <- Ht.
  - exists t. change (String c s = String c (String d r +:+ t)). by rewrite <- Ht.
Qed.

Lemma contains_strip (k s : string) :
  Text.contains k (strip s) = true → Text.contains k s = true.
Proof.
  unfold strip. intros H. apply contains_lstrip.
  destruct (rstrip_prefix (lstrip s)) as [t Ht]. rewrite Ht.
  by apply contains_extend.
Qed.

(** X24. Whatever the reply, the text that [process_job_with_llm] goes on
    to search and parse holds no code-block marker: three backquotes in a
    row occur nowhere in it. *)
Theorem clean_output_no_marker (raw : string) :
  Text.contains "```" (Runner.clean_output raw) = false.
Proof.
  unfold Runner.clean_output.
  destruct (Text.contains "```" (strip _)) eqn:H; [| reflexivity].
  apply contains_strip in H.
  change (replace "```" "" (replace "```json" "" (strip raw)))
    with (replace_from "```" "" 0 (replace "```json" "" (strip raw))) in H.
  by rewrite (proj1 (replace_from_ticks _ 0)) in H.
Qed.
